(** * Sorted-photos gallery: order resolution, filename decoding, analytics

    A shallow embedding of the gallery page script ([src/script.js]) and of
    the analytics widget ([AnalyticsDisplay], two revisions), followed by the
    properties the specification states about them.

    JavaScript strings are modelled as [string]s holding the UTF-8 bytes of
    the text.  Every separator and marker the code looks for ('/', '_', '|',
    'x', digits, '+', '-', ".ready") is ASCII, and an ASCII byte never occurs
    inside a multi-byte UTF-8 sequence, so splitting and prefix tests agree
    with the code-unit operations of the engine. *)

From Stdlib Require Import List String Ascii Bool Arith ZArith Lia.
From Stdlib Require Import Sorted Permutation.
From Stdlib Require Import DecimalString.
Import ListNotations.

Set Warnings "-register-all".

Local Open Scope string_scope.
Local Open Scope list_scope.

(** ** String primitives of the engine *)

Module Js.

(** [s.split(sep)] for a one-character separator: never the empty array. *)
Fixpoint split (sep : ascii) (s : string) : list string :=
  match s with
  | EmptyString => [EmptyString]
  | String c s' =>
      if Ascii.eqb c sep then EmptyString :: split sep s'
      else match split sep s' with
           | [] => [String c EmptyString]
           | p :: ps => String c p :: ps
           end
  end.

(** [parts.join(sep)]. *)
Fixpoint join (sep : string) (parts : list string) : string :=
  match parts with
  | [] => EmptyString
  | [p] => p
  | p :: ps => p ++ sep ++ join sep ps
  end.

(** [arr.pop()] read as a value: the last element, [undefined] on []. *)
Definition pop {A} (arr : list A) : option A :=
  match rev arr with
  | [] => None
  | x :: _ => Some x
  end.

(** [arr.slice(start)] for a non-negative start. *)
Definition slice {A} (start : nat) (arr : list A) : list A := skipn start arr.

Definition startsWith (s pre : string) : bool := String.prefix pre s.

Definition endsWith (s suf : string) : bool :=
  (String.length suf <=? String.length s)%nat
  && String.eqb (substring (String.length s - String.length suf)
                           (String.length suf) s) suf.

(** [s.includes(sub)]. *)
Fixpoint includes (s sub : string) : bool :=
  String.prefix sub s
  || match s with
     | EmptyString => false
     | String _ s' => includes s' sub
     end.

(** Decimal rendering of a non-negative integer inside a template string. *)
Definition ofNat (n : nat) : string := NilZero.string_of_uint (Nat.to_uint n).

End Js.

(** ** script.js : filename decoding *)

(** [s3Key.split('/').pop()] *)
Definition basename (s3Key : string) : string :=
  match Js.pop (Js.split "/" s3Key) with
  | Some f => f
  | None => EmptyString
  end.

(** The test of the loop body: [parts[i].startsWith('|') && parts[i].endsWith('|')]. *)
Definition isMethodMarker (part : string) : bool :=
  Js.startsWith part "|" && Js.endsWith part "|".

(** The [for] loop with its [break]: [i] is the index of the head of
    [parts]; the result is the value of [startIndex] after the loop. *)
Fixpoint markerStart (i : nat) (parts : list string) : nat :=
  match parts with
  | [] => 0
  | p :: ps => if isMethodMarker p then i + 1 else markerStart (i + 1) ps
  end.

Definition extractOriginalFilename (s3Key : string) : string :=
  let filename := basename s3Key in
  let parts := Js.split "_" filename in
  let startIndex := markerStart 0 parts in
  let startIndex :=
    match nth_error parts startIndex with
    | Some p => if String.eqb p "x" then startIndex + 1 else startIndex
    | None => startIndex
    end in
  Js.join "_" (Js.slice startIndex parts).

(** ** Values of the engine and the network *)

(** Values read from JSON documents or held in the script's variables.
    Numbers in the documents of this program are integer counts. *)
Inductive value : Type :=
| VUndef
| VNull
| VBool (b : bool)
| VNum (n : Z)
| VStr (s : string)
| VArr (xs : list value)
| VObj (props : list (string * value)).

(** ToBoolean. *)
Definition truthy (v : value) : bool :=
  match v with
  | VUndef | VNull => false
  | VBool b => b
  | VNum n => negb (n =? 0)%Z
  | VStr s => negb (String.eqb s "")
  | VArr _ | VObj _ => true
  end.

(** [a || b] *)
Definition orElse (a b : value) : value := if truthy a then a else b.

(** An object is the list of its own properties in insertion order; a read
    takes the first binding of the name. *)
Fixpoint lookup (name : string) (props : list (string * value)) : option value :=
  match props with
  | [] => None
  | (k, v) :: rest => if String.eqb k name then Some v else lookup name rest
  end.

(** [obj[name] = v]: overwrite in place, or append a new property. *)
Fixpoint setProp (name : string) (v : value) (props : list (string * value))
  : list (string * value) :=
  match props with
  | [] => [(name, v)]
  | (k, w) :: rest =>
      if String.eqb k name then (k, v) :: rest else (k, w) :: setProp name v rest
  end.

(** [{ ...a, ...b }] continued: the properties of [b] written over [a]. *)
Definition spread (a b : list (string * value)) : list (string * value) :=
  fold_left (fun acc kv => setProp (fst kv) (snd kv) acc) b a.

(** Exceptions carry the name of their constructor and a message. *)
Record exn : Type := { exnName : string; message : string }.

Definition Error (m : string) : exn := {| exnName := "Error"; message := m |}.
Definition TypeError (m : string) : exn := {| exnName := "TypeError"; message := m |}.

(** [v.name] for a name that no built-in prototype defines: [undefined] on
    anything but an object that has it, a TypeError on null and undefined. *)
Definition getProp (v : value) (name : string) : exn + value :=
  match v with
  | VUndef =>
      inl (TypeError ("Cannot read properties of undefined (reading '" ++ name ++ "')"))
  | VNull =>
      inl (TypeError ("Cannot read properties of null (reading '" ++ name ++ "')"))
  | VObj props =>
      inr (match lookup name props with Some w => w | None => VUndef end)
  | _ => inr VUndef
  end.

(** A settled [fetch]: the response's status line and what [response.json()]
    settles to. *)
Record Response : Type := {
  status : nat;
  statusText : string;
  json : exn + value
}.

Definition ok (r : Response) : bool :=
  (200 <=? status r)%nat && (status r <=? 299)%nat.

Inductive FetchOutcome : Type :=
| Rejected (e : exn)
| Resolved (r : Response).

Record Request : Type := {
  reqUrl : string;
  reqMethod : string;
  reqBody : option value
}.

(** The world outside the page: what each request settles to. *)
Definition Network : Type := Request -> FetchOutcome.

Definition GET (url : string) : Request :=
  {| reqUrl := url; reqMethod := "GET"; reqBody := None |}.

(** What [JSON.stringify] writes for a value: [undefined] inside an array
    becomes [null], a property holding [undefined] is left out. *)
Fixpoint stringified (v : value) : value :=
  match v with
  | VArr xs =>
      VArr (map (fun x => match x with VUndef => VNull | _ => stringified x end) xs)
  | VObj props =>
      VObj ((fix go (ps : list (string * value)) : list (string * value) :=
               match ps with
               | [] => []
               | (k, VUndef) :: rest => go rest
               | (k, w) :: rest => (k, stringified w) :: go rest
               end) props)
  | _ => v
  end.

Definition POST (url : string) (payload : value) : Request :=
  {| reqUrl := url; reqMethod := "POST"; reqBody := Some (stringified payload) |}.

(** ** script.js : configuration and state *)

Definition S3_BUCKET : string := "order-by-age-uploads".
Definition S3_BASE_URL : string := "https://" ++ S3_BUCKET ++ ".s3.amazonaws.com".
Definition ZIP_LAMBDA_URL : string :=
  "https://cstueckloguxc24v6kshrxfn3y0oifhc.lambda-url.us-east-2.on.aws/".
Definition DELETE_LAMBDA_URL : string :=
  "https://d3fcunfwhpv4dhopus6lylkiam0dyabo.lambda-url.us-east-2.on.aws/".

Record PhotoEntry : Type := {
  s3Key : string;
  filename : string;
  originalFilename : string
}.

(** One [.photo-item] of the gallery: its [data-s3-key] and its number badge. *)
Record PhotoItem : Type := {
  itemKey : string;
  itemNumber : string;
  itemIndex : nat
}.

(** The parts of the document the script reads and writes. [true] is
    [display: block], [false] is [display: none]. *)
Record Page : Type := {
  loadingState : bool;
  errorState : bool;
  errorDetail : string;
  galleryContainer : bool;
  downloadSection : bool;
  bottomDownload : bool;
  photoGallery : list PhotoItem;
  photoCount : string
}.

(** The module-level variables together with the document. *)
Record State : Type := {
  photoOrder : list value;
  uid : option string;
  page : Page
}.

Definition withPage (st : State) (pg : Page) : State :=
  {| photoOrder := photoOrder st; uid := uid st; page := pg |}.

(** [`${uid}`] *)
Definition uidText (u : option string) : string :=
  match u with Some s => s | None => "null" end.

(** ** script.js : UI helpers *)

Definition showLoading (show : bool) (pg : Page) : Page :=
  {| loadingState := show;
     errorState := errorState pg;
     errorDetail := errorDetail pg;
     galleryContainer := negb show;
     downloadSection := negb show;
     bottomDownload := bottomDownload pg;
     photoGallery := photoGallery pg;
     photoCount := photoCount pg |}.

Definition showError (detail : string) (pg : Page) : Page :=
  {| loadingState := false;
     errorState := true;
     errorDetail := if String.eqb detail "" then errorDetail pg else detail;
     galleryContainer := false;
     downloadSection := false;
     bottomDownload := bottomDownload pg;
     photoGallery := photoGallery pg;
     photoCount := photoCount pg |}.

(** [String(n).padStart(3, '0')] *)
Definition padStart3 (n : nat) : string :=
  let s := Js.ofNat n in
  match String.length s with
  | 1 => "00" ++ s
  | 2 => "0" ++ s
  | _ => s
  end.

Fixpoint numberFrom (index : nat) (keys : list string) : list PhotoItem :=
  match keys with
  | [] => []
  | k :: rest =>
      {| itemKey := k; itemNumber := padStart3 (index + 1); itemIndex := index |}
      :: numberFrom (index + 1) rest
  end.

Definition renderGallery (photoEntries : list PhotoEntry) : list PhotoItem :=
  numberFrom 0 (map s3Key photoEntries).

Definition updateDisplayNumbers (items : list PhotoItem) : list PhotoItem :=
  numberFrom 0 (map itemKey items).

(** Decimal rendering of an integer. *)
Definition ofZ (n : Z) : string :=
  if (n <? 0)%Z then "-" ++ Js.ofNat (Z.to_nat (- n)) else Js.ofNat (Z.to_nat n).

(** ToString, as a template string or [new Error(v)] applies it. *)
Fixpoint toText (v : value) : string :=
  match v with
  | VUndef => "undefined"
  | VNull => "null"
  | VBool true => "true"
  | VBool false => "false"
  | VNum n => ofZ n
  | VStr s => s
  | VArr xs =>
      Js.join "," (map (fun x => match x with
                                 | VUndef | VNull => EmptyString
                                 | _ => toText x
                                 end) xs)
  | VObj _ => "[object Object]"
  end.

(** ** Throwing computations *)

Definition bind {A B} (m : exn + A) (k : A -> exn + B) : exn + B :=
  match m with
  | inl e => inl e
  | inr a => k a
  end.

Notation "'let*' x ':=' m 'in' k" := (bind m (fun x => k))
  (at level 10, x pattern, m at level 100, k at level 200, only parsing).

(** [arr.map(f)] / [arr.filter(f)] with a callback that may throw: the
    first exception ends the traversal. *)
Fixpoint mapM {A B} (f : A -> exn + B) (xs : list A) : exn + list B :=
  match xs with
  | [] => inr []
  | x :: rest =>
      let* y := f x in
      let* ys := mapM f rest in
      inr (y :: ys)
  end.

Fixpoint filterM {A} (f : A -> exn + bool) (xs : list A) : exn + list A :=
  match xs with
  | [] => inr []
  | x :: rest =>
      let* keep := f x in
      let* ys := filterM f rest in
      inr (if keep then x :: ys else ys)
  end.

(** [arr.splice(start, deleteCount, ...items)] for non-negative arguments:
    the removed elements and the array afterwards. *)
Definition splice {A} (start deleteCount : nat) (items arr : list A)
  : list A * list A :=
  (firstn deleteCount (skipn start arr),
   firstn start arr ++ items ++ skipn (start + deleteCount) arr).

(** [arr.indexOf(s)] for a string [s]: strict equality holds only with a
    string of the same text. *)
Fixpoint indexOfFrom (i : Z) (s : string) (arr : list value) : Z :=
  match arr with
  | [] => (-1)%Z
  | VStr t :: rest => if String.eqb t s then i else indexOfFrom (i + 1)%Z s rest
  | _ :: rest => indexOfFrom (i + 1)%Z s rest
  end.

Definition indexOf (s : string) (arr : list value) : Z := indexOfFrom 0%Z s arr.

(** ** script.js : the order resolver *)

Section Script.

(** [a.localeCompare(b)]: negative, zero or positive; the collation is the
    host's. *)
Variable localeCompare : string -> string -> Z.

(** [arr.sort(cmp)]: the engine's sort is stable; [x] goes before the first
    element it does not compare greater than. *)
Fixpoint insertSorted {A} (cmp : A -> A -> Z) (x : A) (sorted : list A) : list A :=
  match sorted with
  | [] => [x]
  | y :: rest =>
      if (cmp x y <=? 0)%Z then x :: y :: rest
      else y :: insertSorted cmp x rest
  end.

Fixpoint sort {A} (cmp : A -> A -> Z) (arr : list A) : list A :=
  match arr with
  | [] => []
  | x :: rest => insertSorted cmp x (sort cmp rest)
  end.

Definition customOrderUrl (u : option string) : string :=
  S3_BASE_URL ++ "/metadata/" ++ uidText u ++ "/custom_order.json".

Definition manifestUrl (u : option string) : string :=
  S3_BASE_URL ++ "/metadata/" ++ uidText u ++ "/final_filenames.json".

(** [loadCustomOrder]: everything thrown inside the [try] is swallowed. *)
Definition loadCustomOrder (net : Network) (u : option string) : value :=
  match net (GET (customOrderUrl u)) with
  | Rejected _ => VNull
  | Resolved response =>
      if ok response then
        match json response with
        | inl _ => VNull
        | inr data =>
            match getProp data "updated_at" with
            | inl _ => VNull
            | inr _ =>
                match getProp data "order" with
                | inl _ => VNull
                | inr order => order
                end
            end
        end
      else VNull
  end.

(** The object built for one key by both branches of [loadPhotos]. *)
Definition entryOf (key : string) : PhotoEntry :=
  {| s3Key := key;
     filename := basename key;
     originalFilename := extractOriginalFilename key |}.

(** The callback of [customOrder.map]: [s3Key.split] needs a string. *)
Definition customEntry (k : value) : exn + PhotoEntry :=
  match k with
  | VStr key => inr (entryOf key)
  | VUndef => inl (TypeError "Cannot read properties of undefined (reading 'split')")
  | VNull => inl (TypeError "Cannot read properties of null (reading 'split')")
  | _ => inl (TypeError "s3Key.split is not a function")
  end.

(** The custom-order branch. *)
Definition entriesOfCustomOrder (customOrder : value) : exn + list PhotoEntry :=
  match customOrder with
  | VArr keys => mapM customEntry keys
  | _ => inl (TypeError "customOrder.map is not a function")
  end.

(** The callback of [manifest.filter]:
    [entry.final_key && !entry.final_key.endsWith('.ready')]. *)
Definition keepEntry (entry : value) : exn + bool :=
  let* fk := getProp entry "final_key" in
  if truthy fk then
    match fk with
    | VStr key => inr (negb (Js.endsWith key ".ready"))
    | _ => inl (TypeError "entry.final_key.endsWith is not a function")
    end
  else inr false.

(** The callback of the [map] after the filter; the filter has let through
    only entries whose [final_key] is a string. *)
Definition manifestEntry (entry : value) : exn + PhotoEntry :=
  let* fk := getProp entry "final_key" in
  match fk with
  | VStr key => inr (entryOf key)
  | VUndef => inl (TypeError "Cannot read properties of undefined (reading 'split')")
  | VNull => inl (TypeError "Cannot read properties of null (reading 'split')")
  | _ => inl (TypeError "entry.final_key.split is not a function")
  end.

Definition compareEntries (a b : PhotoEntry) : Z :=
  localeCompare (filename a) (filename b).

(** The manifest branch. *)
Definition entriesOfManifest (net : Network) (u : option string)
  : exn + list PhotoEntry :=
  match net (GET (manifestUrl u)) with
  | Rejected e => inl e
  | Resolved response =>
      if ok response then
        let* manifest := json response in
        match manifest with
        | VUndef =>
            inl (TypeError "Cannot read properties of undefined (reading 'length')")
        | VNull =>
            inl (TypeError "Cannot read properties of null (reading 'length')")
        | VArr entries =>
            let* kept := filterM keepEntry entries in
            let* mapped := mapM manifestEntry kept in
            inr (sort compareEntries mapped)
        | _ => inl (TypeError "manifest.filter is not a function")
        end
      else
        inl (Error ("Failed to fetch manifest: " ++ Js.ofNat (status response)
                    ++ " " ++ statusText response))
  end.

(** The choice between the two branches, [if (customOrder) ... else ...],
    with the requests the run has made by then, in order. *)
Definition resolveEntries (net : Network) (u : option string)
  : list Request * (exn + list PhotoEntry) :=
  let customOrder := loadCustomOrder net u in
  if truthy customOrder
  then ([GET (customOrderUrl u)], entriesOfCustomOrder customOrder)
  else ([GET (customOrderUrl u); GET (manifestUrl u)], entriesOfManifest net u).

(** [loadPhotos]: the state it leaves and whether it threw.  When it throws
    the page is still in the loading state. *)
Definition loadPhotos (net : Network) (st : State) : State * option exn :=
  let st := withPage st (showLoading true (page st)) in
  match snd (resolveEntries net (uid st)) with
  | inl e => (st, Some e)
  | inr photoEntries =>
      let pg := page st in
      let pg :=
        {| loadingState := loadingState pg;
           errorState := errorState pg;
           errorDetail := errorDetail pg;
           galleryContainer := galleryContainer pg;
           downloadSection := downloadSection pg;
           bottomDownload :=
             if (20 <? List.length photoEntries)%nat then true
             else bottomDownload pg;
           photoGallery := renderGallery photoEntries;
           photoCount := Js.ofNat (List.length photoEntries) |} in
      ({| photoOrder := map (fun entry => VStr (s3Key entry)) photoEntries;
          uid := uid st;
          page := showLoading false pg |}, None)
  end.

(** The [DOMContentLoaded] handler; [param] is [urlParams.get('uid')]. *)
Definition onDOMContentLoaded (net : Network) (param : option string)
  (st : State) : State :=
  let st := {| photoOrder := photoOrder st; uid := param; page := page st |} in
  match param with
  | None | Some EmptyString => withPage st (showError "" (page st))
  | Some _ =>
      match loadPhotos net st with
      | (st', None) => st'
      | (st', Some error) => withPage st' (showError (message error) (page st'))
      end
  end.

(** ** script.js : reorder, download, delete *)

(** [onEnd] of the drag-and-drop library, called after the library has moved
    the dragged element inside the gallery. *)
Definition onEnd (oldIndex newIndex : nat) (st : State) : State :=
  if (oldIndex =? newIndex)%nat then st
  else
    let '(removed, order) := splice oldIndex 1 [] (photoOrder st) in
    let movedItem := hd VUndef removed in
    let '(_, order) := splice newIndex 0 [movedItem] order in
    let pg := page st in
    {| photoOrder := order;
       uid := uid st;
       page :=
         {| loadingState := loadingState pg;
            errorState := errorState pg;
            errorDetail := errorDetail pg;
            galleryContainer := galleryContainer pg;
            downloadSection := downloadSection pg;
            bottomDownload := bottomDownload pg;
            photoGallery := updateDisplayNumbers (photoGallery pg);
            photoCount := photoCount pg |} |}.

Definition uidValue (u : option string) : value :=
  match u with Some s => VStr s | None => VNull end.

(** The request [downloadAll] sends. *)
Definition downloadRequest (st : State) : Request :=
  POST ZIP_LAMBDA_URL
       (VObj [("uid", uidValue (uid st)); ("photo_order", VArr (photoOrder st))]).

(** How [downloadAll] ends: the success overlay with the navigation to the
    archive, or the error banner showing the message of what was thrown. *)
Inductive DownloadResult : Type :=
| DownloadStarted (download_url photo_count email_sent : value)
| DownloadFailed (error : exn).

(** [downloadAll]: the request it submits and how it ends. *)
Definition downloadAll (net : Network) (st : State) : Request * DownloadResult :=
  let request := downloadRequest st in
  let attempt : exn + DownloadResult :=
    match net request with
    | Rejected e => inl e
    | Resolved response =>
        if ok response then
          let* result := json response in
          let* success := getProp result "success" in
          let* url := getProp result "download_url" in
          if truthy success && truthy url then
            let* count := getProp result "photo_count" in
            let* sent := getProp result "email_sent" in
            inr (DownloadStarted url count sent)
          else
            let* err := getProp result "error" in
            inl (Error (toText (orElse err (VStr "Failed to generate download link"))))
        else
          let errorData :=
            match json response with
            | inl _ => VObj []
            | inr d => d
            end in
          let* err := getProp errorData "error" in
          inl (Error (toText (orElse err
                 (VStr ("Server error: " ++ Js.ofNat (status response))))))
    end in
  (request,
   match attempt with
   | inl e => DownloadFailed e
   | inr r => r
   end).

(** The update both removing paths of [deletePhoto] make:
    [index = photoOrder.indexOf(s3Key); if (index > -1) photoOrder.splice(index, 1)]. *)
Definition removeFromOrder (key : string) (order : list value) : list value :=
  let index := indexOf key order in
  if (-1 <? index)%Z then snd (splice (Z.to_nat index) 1 [] order)
  else order.

(** [photoItem.remove()] followed by the renumbering and the new count, as
    the timer callback leaves the page; [clicked] is the position of the
    item whose button was pressed. *)
Definition removeFromPage (clicked : nat) (order : list value) (pg : Page) : Page :=
  {| loadingState := loadingState pg;
     errorState := errorState pg;
     errorDetail := errorDetail pg;
     galleryContainer := galleryContainer pg;
     downloadSection := downloadSection pg;
     bottomDownload := bottomDownload pg;
     photoGallery :=
       updateDisplayNumbers (snd (splice clicked 1 [] (photoGallery pg)));
     photoCount := Js.ofNat (List.length order) |}.

Definition deleteRequest (u : option string) (key : string) : Request :=
  POST DELETE_LAMBDA_URL (VObj [("uid", uidValue u); ("s3_key", VStr key)]).

(** Which way [deletePhoto] went. *)
Inductive DeletePath : Type :=
| Cancelled
| Responded
| CorsSuspected
| Alerted (text : string).

(** The [catch] test: [error.message.includes('CORS') ||
    error.message.includes('NetworkError')]. *)
Definition looksLikeCors (error : exn) : bool :=
  Js.includes (message error) "CORS" || Js.includes (message error) "NetworkError".

Definition deletePath (confirmed : bool) (net : Network) (key : string)
  (st : State) : DeletePath :=
  if confirmed then
    match net (deleteRequest (uid st) key) with
    | Resolved _ => Responded
    | Rejected error =>
        if looksLikeCors error then CorsSuspected
        else Alerted ("Failed to delete photo: " ++ message error)
    end
  else Cancelled.

(** [deletePhoto]: the state once its timer has run.  The parsed response is
    only logged. *)
Definition deletePhoto (confirmed : bool) (net : Network) (key : string)
  (clicked : nat) (st : State) : State :=
  match deletePath confirmed net key st with
  | Responded | CorsSuspected =>
      let order := removeFromOrder key (photoOrder st) in
      {| photoOrder := order;
         uid := uid st;
         page := removeFromPage clicked order (page st) |}
  | Cancelled | Alerted _ => st
  end.

End Script.

(** ** AnalyticsDisplay, the revision with the age histogram *)

(** [stats.name] on the stats object. *)
Definition statOf (name : string) (stats : list (string * value)) : value :=
  match lookup name stats with
  | Some v => v
  | None => VUndef
  end.

Definition metadataUrl (u file : string) : string :=
  "https://order-by-age-uploads.s3.amazonaws.com/metadata/" ++ u ++ "/" ++ file.

Definition intermediateUrl (u : string) : string :=
  "https://order-by-age-uploads.s3.amazonaws.com/face-intermediate/" ++ u
  ++ "/pre_merge_data.json".

(** The body shared by the fetchers: any rejection, non-ok status or
    exception while reading gives the empty object. *)
Definition fetchObject (net : Network) (url : string)
  (read : value -> exn + list (string * value)) : list (string * value) :=
  match net (GET url) with
  | Rejected _ => []
  | Resolved response =>
      if ok response then
        match (let* data := json response in read data) with
        | inl _ => []
        | inr props => props
        end
      else []
  end.

(** [fetchPresentationSettings], the same in both revisions. *)
Definition fetchPresentationSettings (net : Network) (u : string)
  : list (string * value) :=
  fetchObject net (metadataUrl u "presentation_settings.json") (fun data =>
    let* birthdate := getProp data "birthdate" in
    let* deathdate := getProp data "deathdate" in
    let* first := getProp data "deceased_first_name" in
    let* full := getProp data "deceased_full_name" in
    inr [("birthdate", orElse birthdate VNull);
         ("deathdate", orElse deathdate VNull);
         ("deceasedName", orElse (orElse first full) VNull)]).

Section Dates.

(** [new Date(v).getFullYear()]: the year, in the host's time zone, of the
    instant the host reads from [v]; [None] stands for NaN (invalid date). *)
Variable fullYear : value -> option Z.

(** [calculateYearsOfMemories], the same in both revisions: a number or
    [null]. *)
Definition calculateYearsOfMemories (stats : list (string * value)) : value :=
  if truthy (statOf "birthdate" stats) && truthy (statOf "deathdate" stats) then
    match fullYear (statOf "deathdate" stats), fullYear (statOf "birthdate" stats) with
    | Some death, Some birth =>
        let years := (death - birth)%Z in
        if (0 <? years)%Z then VNum years else VNull
    | _, _ => VNull
    end
  else VNull.

End Dates.

Module AnalyticsDisplay.

Record Bucket : Type := { label : string; shortLabel : string }.

Definition AGE_BUCKETS : list (string * Bucket) :=
  [ ("01-05", {| label := "0-5"; shortLabel := "0-5" |});
    ("06-10", {| label := "6-10"; shortLabel := "6-10" |});
    ("11-15", {| label := "11-15"; shortLabel := "11-15" |});
    ("16-20", {| label := "16-20"; shortLabel := "16-20" |});
    ("21-30", {| label := "21-30"; shortLabel := "21-30" |});
    ("31-40", {| label := "31-40"; shortLabel := "31-40" |});
    ("41-50", {| label := "41-50"; shortLabel := "41-50" |});
    ("51-60", {| label := "51-60"; shortLabel := "51-60" |});
    ("61-70", {| label := "61-70"; shortLabel := "61-70" |});
    ("71-80", {| label := "71-80"; shortLabel := "71-80" |});
    ("81+", {| label := "81+"; shortLabel := "81+" |}) ].

(** [Object.keys(this.AGE_BUCKETS)] *)
Definition bucketOrder : list string := map fst AGE_BUCKETS.

(** [this.AGE_BUCKETS[name]] *)
Fixpoint bucketNamed (name : string) (buckets : list (string * Bucket))
  : option Bucket :=
  match buckets with
  | [] => None
  | (k, b) :: rest => if String.eqb k name then Some b else bucketNamed name rest
  end.

Definition labelOf (name : string) : string :=
  match bucketNamed name AGE_BUCKETS with
  | Some b => label b
  | None => "undefined"
  end.

Definition isDigit (c : ascii) : bool :=
  (48 <=? nat_of_ascii c)%nat && (nat_of_ascii c <=? 57)%nat.

(** [filename.match(/^(\d{2}-\d{2}|\d{2}\+)/)]: the captured group. *)
Definition matchBucket (filename : string) : option string :=
  match filename with
  | String a (String b (String c rest)) =>
      if isDigit a && isDigit b then
        if Ascii.eqb c "-" then
          match rest with
          | String d (String e _) =>
              if isDigit d && isDigit e
              then Some (String a (String b (String c (String d (String e "")))))
              else None
          | _ => None
          end
        else if Ascii.eqb c "+" then Some (String a (String b (String c "")))
        else None
      else None
  | _ => None
  end.

(** [bucketCounts[name]++] *)
Fixpoint increment (name : string) (counts : list (string * Z)) : list (string * Z) :=
  match counts with
  | [] => []
  | (k, n) :: rest =>
      if String.eqb k name then (k, (n + 1)%Z) :: rest
      else (k, n) :: increment name rest
  end.

(** The callback of [photoOrder.forEach]. *)
Definition countKey (counts : list (string * Z)) (key : value)
  : exn + list (string * Z) :=
  match key with
  | VStr k =>
      match matchBucket (basename k) with
      | Some name =>
          match bucketNamed name AGE_BUCKETS with
          | Some _ => inr (increment name counts)
          | None => inr counts
          end
      | None => inr counts
      end
  | VUndef => inl (TypeError "Cannot read properties of undefined (reading 'split')")
  | VNull => inl (TypeError "Cannot read properties of null (reading 'split')")
  | _ => inl (TypeError "key.split is not a function")
  end.

Fixpoint countKeys (counts : list (string * Z)) (keys : list value)
  : exn + list (string * Z) :=
  match keys with
  | [] => inr counts
  | key :: rest =>
      let* counts := countKey counts key in
      countKeys counts rest
  end.

Definition countIn (counts : list (string * Z)) (name : string) : Z :=
  match find (fun kn => String.eqb (fst kn) name) counts with
  | Some kn => snd kn
  | None => 0%Z
  end.

Definition parseFilenames (photoOrder : list value) : exn + list (string * value) :=
  let* bucketCounts := countKeys (map (fun b => (b, 0%Z)) bucketOrder) photoOrder in
  let bucketsWithPhotos :=
    filter (fun b => (0 <? countIn bucketCounts b)%Z) bucketOrder in
  match bucketsWithPhotos with
  | [] => inr [("ageRangeLabel", VNull); ("bucketCounts", VNull)]
  | youngest :: _ =>
      let oldest := last bucketsWithPhotos youngest in
      inr [("bucketCounts", VObj (map (fun kn => (fst kn, VNum (snd kn))) bucketCounts));
           ("youngestBucket", VStr youngest);
           ("oldestBucket", VStr oldest);
           ("ageRangeLabel", VStr (labelOf youngest ++ " → " ++ labelOf oldest))]
  end.

Definition fetchProcessingStats (net : Network) (u : string)
  : list (string * value) :=
  fetchObject net (intermediateUrl u) (fun data =>
    let* found := getProp data "enhanced_processing_stats" in
    let stats := orElse found (VObj []) in
    let* faces := getProp stats "total_faces_indexed" in
    let* photos := getProp stats "total_photos" in
    inr [("totalFacesIndexed", orElse faces VNull);
         ("totalPhotosProcessed", orElse photos VNull)]).

(** One bar of the chart: its label, its count, and the numerator of its
    width, [Math.max(8, count / maxCount * 100)] percent being
    [widthTimesMax / maxCount]. *)
Record Bar : Type := {
  barLabel : string;
  barCount : Z;
  widthTimesMax : Z;
  barMax : Z
}.

(** [bucketCounts[name]] as a number.  The only writer of [bucketCounts] in
    the stats object is [parseFilenames], whose counts are numbers. *)
Definition countOf (bucketCounts : value) (name : string) : Z :=
  match bucketCounts with
  | VObj props =>
      match lookup name props with
      | Some (VNum n) => n
      | _ => 0%Z
      end
  | _ => 0%Z
  end.

Definition renderBarChart (bucketCounts : value) : list Bar :=
  let activeBuckets :=
    filter (fun b => (0 <? countOf bucketCounts b)%Z) bucketOrder in
  let maxCount :=
    fold_right Z.max 0%Z (map (countOf bucketCounts) activeBuckets) in
  map (fun bucket =>
         let count := countOf bucketCounts bucket in
         {| barLabel :=
              match bucketNamed bucket AGE_BUCKETS with
              | Some b => shortLabel b
              | None => "undefined"
              end;
            barCount := count;
            widthTimesMax := Z.max (8 * maxCount) (count * 100);
            barMax := maxCount |})
      activeBuckets.

(** The closing sentence of the box. *)
Inductive Technical : Type :=
| PhotosAndFaces (photoCount faceCount : value)
| PhotosOnly (photoCount : value).

(** What [render] puts in the [analytics-box]. *)
Record Box : Type := {
  yearsLine : option string;
  ageRangeLine : option string;
  chart : list Bar;
  technicalLine : option Technical
}.

(** The test that opens [render]; [true] means the early [return]. *)
Definition notEnoughData (stats : list (string * value)) : bool :=
  negb (truthy (statOf "yearsOfMemories" stats))
  && negb (truthy (statOf "ageRangeLabel" stats)).

Definition buildBox (stats : list (string * value)) : Box :=
  let photoCount :=
    orElse (statOf "photoCount" stats) (statOf "totalPhotosProcessed" stats) in
  let faceCount := statOf "totalFacesIndexed" stats in
  {| yearsLine :=
       if truthy (statOf "yearsOfMemories" stats)
       then Some (toText (statOf "yearsOfMemories" stats) ++ " years")%string
       else None;
     ageRangeLine :=
       if truthy (statOf "ageRangeLabel" stats)
       then Some (toText (statOf "ageRangeLabel" stats))
       else None;
     chart :=
       if truthy (statOf "bucketCounts" stats)
       then renderBarChart (statOf "bucketCounts" stats)
       else [];
     technicalLine :=
       if truthy photoCount && truthy faceCount
       then Some (PhotosAndFaces photoCount faceCount)
       else if truthy photoCount then Some (PhotosOnly photoCount)
       else None |}.

(** [render]: the box inserted after the [.photo-count] element, if any;
    [photoCountEl] tells whether the document has that element. *)
Definition render (photoCountEl : bool) (stats : list (string * value))
  : option Box :=
  if notEnoughData stats then None
  else if photoCountEl then Some (buildBox stats)
  else None.

Section Init.

Variable fullYear : value -> option Z.

(** The stats object [init] hands to [render]. *)
Definition aggregate (net : Network) (u : string) (photoOrder : list value)
  : exn + list (string * value) :=
  let* filenameStats := parseFilenames photoOrder in
  let settingsData := fetchPresentationSettings net u in
  let processingStats := fetchProcessingStats net u in
  let stats :=
    spread (spread (spread
      [("photoCount", VNum (Z.of_nat (List.length photoOrder)))]
      filenameStats) settingsData) processingStats in
  inr (setProp "yearsOfMemories" (calculateYearsOfMemories fullYear stats) stats).

(** [init]: what ends up in the page; an exception is logged and dropped. *)
Definition init (net : Network) (u : string) (photoOrder : list value)
  (photoCountEl : bool) : option Box :=
  match aggregate net u photoOrder with
  | inl _ => None
  | inr stats => render photoCountEl stats
  end.

End Init.

End AnalyticsDisplay.

(** ** AnalyticsDisplay, the revision with the stats grid *)

Module AnalyticsDisplayGrid.

Definition fetchProcessingStats (net : Network) (u : string)
  : list (string * value) :=
  fetchObject net (intermediateUrl u) (fun data =>
    let* found := getProp data "enhanced_processing_stats" in
    let stats := orElse found (VObj []) in
    let* photos := getProp stats "total_photos" in
    let* processed := getProp stats "successfully_processed" in
    let* faces := getProp stats "total_faces_indexed" in
    let* qualifying := getProp stats "qualifying_clusters" in
    let* straggler := getProp stats "straggler_clusters" in
    let* singleton := getProp stats "singleton_clusters" in
    let* cache := getProp stats "similarity_cache_size" in
    inr [("totalPhotos", orElse photos VNull);
         ("successfullyProcessed", orElse processed VNull);
         ("totalFacesIndexed", orElse faces VNull);
         ("qualifyingClusters", orElse qualifying VNull);
         ("stragglerClusters", orElse straggler VNull);
         ("singletonClusters", orElse singleton VNull);
         ("similarityCacheSize", orElse cache VNull)]).

(** A piece of text computed by arithmetic on a field of the stats object.
    The fields are numbers in the documents of this program; on a truthy
    value that is not a number the engine coerces, and the model stops at
    [Coerced] instead of following the coercion. *)
Inductive Computed : Type :=
| Absent
| Text (t : string)
| Coerced.

Definition calculateManualTime (photoCount : value) : Computed :=
  if truthy photoCount then
    match photoCount with
    | VNum n =>
        let secondsPerPhoto := 30%Z in
        let totalSeconds := (n * secondsPerPhoto)%Z in
        (* Math.round(totalSeconds / 60) = floor (n / 2 + 1 / 2) *)
        let totalMinutes := ((n + 1) / 2)%Z in
        let hours := (totalMinutes / 60)%Z in
        let minutes := Z.rem totalMinutes 60 in
        if (1 <=? hours)%Z then
          if (minutes =? 0)%Z then
            Text (ofZ hours ++ " hour" ++ (if (1 <? hours)%Z then "s" else ""))
          else
            (* Math.round(minutes / 6) = floor ((minutes + 3) / 6) *)
            Text (ofZ hours ++ "." ++ ofZ ((minutes + 3) / 6)%Z ++ " hours")
        else Text (ofZ totalMinutes ++ " minutes")
    | _ => Coerced
    end
  else Absent.

(** [(stats.name || 0)] as a number. *)
Definition clusterTerm (v : value) : option Z :=
  if truthy v then
    match v with
    | VNum n => Some n
    | _ => None
    end
  else Some 0%Z.

Definition totalPeopleFound (stats : list (string * value)) : option Z :=
  match clusterTerm (statOf "qualifyingClusters" stats),
        clusterTerm (statOf "stragglerClusters" stats),
        clusterTerm (statOf "singletonClusters" stats) with
  | Some q, Some s, Some t => Some (q + s + t)%Z
  | _, _, _ => None
  end.

(** What [render] puts in the [analytics-box].  A number shown through
    [formatNumber] is kept as the value given to it: its digits are grouped
    by the host's locale. *)
Record Box : Type := {
  headline : option string;
  facesAnalyzed : option value;
  faceComparisons : option value;
  peopleIdentified : Computed;
  timeSaved : Computed;
  technical : option (value * value * value)
}.

(** The test that opens [render]; [true] means the early [return]. *)
Definition notEnoughData (stats : list (string * value)) : bool :=
  negb (truthy (statOf "totalFacesIndexed" stats))
  && negb (truthy (statOf "yearsOfMemories" stats)).

Definition buildBox (stats : list (string * value)) : Box :=
  let manualTime := calculateManualTime (statOf "photoCount" stats) in
  {| headline :=
       if truthy (statOf "yearsOfMemories" stats)
       then Some (toText (statOf "yearsOfMemories" stats) ++ " years")%string
       else None;
     facesAnalyzed :=
       if truthy (statOf "totalFacesIndexed" stats)
       then Some (statOf "totalFacesIndexed" stats)
       else None;
     faceComparisons :=
       if truthy (statOf "similarityCacheSize" stats)
       then Some (statOf "similarityCacheSize" stats)
       else None;
     peopleIdentified :=
       match totalPeopleFound stats with
       | Some n => if (0 <? n)%Z then Text (ofZ n) else Absent
       | None => Coerced
       end;
     timeSaved :=
       if truthy (statOf "photoCount" stats) then manualTime else Absent;
     technical :=
       if truthy (statOf "totalFacesIndexed" stats)
          && truthy (statOf "photoCount" stats)
       then Some (statOf "photoCount" stats,
                  statOf "totalFacesIndexed" stats,
                  orElse (statOf "similarityCacheSize" stats) (VNum 0))
       else None |}.

Definition render (photoCountEl : bool) (stats : list (string * value))
  : option Box :=
  if notEnoughData stats then None
  else if photoCountEl then Some (buildBox stats)
  else None.

Section Init.

Variable fullYear : value -> option Z.

Definition aggregate (net : Network) (u : string) (photoOrder : list value)
  : list (string * value) :=
  let processingStats := fetchProcessingStats net u in
  let settingsData := fetchPresentationSettings net u in
  let stats :=
    spread (spread
      [("photoCount", VNum (Z.of_nat (List.length photoOrder)))]
      processingStats) settingsData in
  setProp "yearsOfMemories" (calculateYearsOfMemories fullYear stats) stats.

Definition init (net : Network) (u : string) (photoOrder : list value)
  (photoCountEl : bool) : option Box :=
  render photoCountEl (aggregate net u photoOrder).

End Init.

End AnalyticsDisplayGrid.

(** A reader of dates for the examples: the UTC year of an ISO date
    ["YYYY-MM-DD"], which is what [getFullYear] gives in a zone at or east of
    Greenwich; any other value reads as an invalid date. *)
Definition isoYear (v : value) : option Z :=
  match v with
  | VStr (String a (String b (String c (String d (String "-" _))))) =>
      if AnalyticsDisplay.isDigit a && AnalyticsDisplay.isDigit b
         && AnalyticsDisplay.isDigit c && AnalyticsDisplay.isDigit d
      then
        let digit x := (Z.of_nat (nat_of_ascii x) - 48)%Z in
        Some (1000 * digit a + 100 * digit b + 10 * digit c + digit d)%Z
      else None
  | _ => None
  end.

(** ** Vocabulary of the statements *)

(** A request that did not bring a document: the promise rejected, or the
    status is outside 200..299. *)
Definition fetchFailed (o : FetchOutcome) : bool :=
  match o with
  | Rejected _ => true
  | Resolved r => negb (ok r)
  end.

(** What the language requires of a comparator for [sort] to be specified,
    and what a collation provides: "not greater" is a total preorder. *)
Definition Consistent (cmp : string -> string -> Z) : Prop :=
  (forall a b, (cmp a b <= 0)%Z \/ (cmp b a <= 0)%Z)
  /\ (forall a b c, (cmp a b <= 0)%Z -> (cmp b c <= 0)%Z -> (cmp a c <= 0)%Z).

(** [a] does not sort after [b]: the comparator's answer is not positive. *)
Definition notAfter {A} (cmp : A -> A -> Z) (a b : A) : Prop := (cmp a b <= 0)%Z.

(** The comparison [loadPhotos] sorts by, read on keys: that of their
    filenames. *)
Definition byFilename (cmp : string -> string -> Z) (a b : string) : Z :=
  cmp (basename a) (basename b).

(** A manifest entry the callbacks of [loadPhotos] accept without throwing:
    not [null], and with a [final_key] that is absent, falsy or a string. *)
Definition wellFormedEntry (entry : value) : bool :=
  match entry with
  | VUndef | VNull => false
  | VObj props =>
      match lookup "final_key" props with
      | None | Some (VStr _) => true
      | Some v => negb (truthy v)
      end
  | _ => true
  end.

(** The key an entry contributes: a non-empty string that does not end in
    ".ready". *)
Definition keptKey (entry : value) : option string :=
  match entry with
  | VObj props =>
      match lookup "final_key" props with
      | Some (VStr key) =>
          if negb (String.eqb key "") && negb (Js.endsWith key ".ready")
          then Some key else None
      | _ => None
      end
  | _ => None
  end.

Definition isKept (entry : value) : bool :=
  match keptKey entry with
  | Some _ => true
  | None => false
  end.

Fixpoint keptKeys (entries : list value) : list string :=
  match entries with
  | [] => []
  | entry :: rest =>
      match keptKey entry with
      | Some key => key :: keptKeys rest
      | None => keptKeys rest
      end
  end.

(** A comparator for the examples: the order of the code units. *)
Definition byteOrder (a b : string) : Z :=
  match String.compare a b with
  | Lt => (-1)%Z
  | Eq => 0%Z
  | Gt => 1%Z
  end.

(** A network for the examples: a table of documents, 404 elsewhere. *)
Definition document (v : value) : FetchOutcome :=
  Resolved {| status := 200; statusText := "OK"; json := inr v |}.

Definition notFound : FetchOutcome :=
  Resolved {| status := 404; statusText := "Not Found";
              json := inl {| exnName := "SyntaxError";
                             message := "Unexpected token '<'" |} |}.

Fixpoint served (table : list (string * FetchOutcome)) (request : Request)
  : FetchOutcome :=
  match table with
  | [] => notFound
  | (url, outcome) :: rest =>
      if String.eqb url (reqUrl request) then outcome else served rest request
  end.

Definition blankPage : Page :=
  {| loadingState := true;
     errorState := false;
     errorDetail := "";
     galleryContainer := false;
     downloadSection := false;
     bottomDownload := false;
     photoGallery := [];
     photoCount := "0" |}.

Definition blankState : State :=
  {| photoOrder := []; uid := None; page := blankPage |}.

(** The documents of an order for the examples: a reviewed order that
    differs from the sorted one, and a manifest with a sentinel entry. *)
Definition reviewedOrder : list string :=
  ["enhanced/u1/renamed/06-10(001)_|EX|_b.jpg";
   "enhanced/u1/renamed/01-05(001)_|EX|_x_a.jpg"].

Definition manifestEntries : list value :=
  [ VObj [("final_key", VStr "enhanced/u1/renamed/06-10(001)_|EX|_b.jpg")];
    VObj [("final_key", VStr "enhanced/u1/renamed/.ready")];
    VObj [("original_key", VStr "uploads/u1/c.jpg")];
    VObj [("final_key", VStr "enhanced/u1/renamed/01-05(001)_|EX|_x_a.jpg")] ].

Definition reviewedNet : Network :=
  served
    [ (customOrderUrl (Some "u1"),
       document (VObj [("updated_at", VStr "2025-01-01T00:00:00Z");
                       ("order", VArr (map VStr reviewedOrder))]));
      (manifestUrl (Some "u1"), document (VArr manifestEntries)) ].

Definition unreviewedNet : Network :=
  served [ (manifestUrl (Some "u1"), document (VArr manifestEntries)) ].

Definition orderU1 : State :=
  {| photoOrder := []; uid := Some "u1"; page := blankPage |}.

(** A network on which the manifest of order "u1" answers 500 and nothing
    else is served. *)
Definition brokenNet : Network :=
  served
    [ (manifestUrl (Some "u1"),
       Resolved {| status := 500; statusText := "Internal Server Error";
                   json := inr (VObj [("error", VStr "unavailable")]) |}) ].

(** [JSON.parse(request.body)[name]] *)
Definition bodyField (name : string) (request : Request) : option value :=
  match reqBody request with
  | Some (VObj props) => lookup name props
  | _ => None
  end.

(** Networks for the examples of [deletePhoto]: one that answers the
    delete request, one on which the browser blocks it. *)
Definition deletingNet : Network :=
  served [ (DELETE_LAMBDA_URL, document (VObj [("success", VBool true)])) ].

Definition blockedNet : Network :=
  fun _ => Rejected {| exnName := "TypeError";
                       message := "NetworkError when attempting to fetch resource." |}.

Definition repeatedOrder : State :=
  {| photoOrder := map VStr ["k/a.jpg"; "k/b.jpg"; "k/a.jpg"];
     uid := Some "u1";
     page := blankPage |}.

(** The bucket a key counts for in [parseFilenames], if any. *)
Definition bucketOfKey (key : string) : option string :=
  match AnalyticsDisplay.matchBucket (basename key) with
  | Some name =>
      match AnalyticsDisplay.bucketNamed name AnalyticsDisplay.AGE_BUCKETS with
      | Some _ => Some name
      | None => None
      end
  | None => None
  end.

Definition settingsUrl (u : string) : string :=
  metadataUrl u "presentation_settings.json".

(** A network on which only the processing statistics of "u1" are served. *)
Definition statsOnlyNet : Network :=
  served
    [ (intermediateUrl "u1",
       document
         (VObj [("enhanced_processing_stats",
                 VObj [("total_faces_indexed", VNum 1200);
                       ("total_photos", VNum 2)])])) ].

Definition unbucketedOrder : list value :=
  [VStr "enhanced/u1/renamed/IMG_0001.jpg"; VStr "enhanced/u1/renamed/IMG_0002.jpg"].

Definition bucketedOrder : list string :=
  ["enhanced/u1/renamed/01-05(003)_|EX|_x_photo.jpg"].

(** A network on which every request is rejected. *)
Definition offline : Network :=
  fun _ => Rejected {| exnName := "TypeError"; message := "Failed to fetch" |}.

(** The counts [parseFilenames] starts from. *)
Definition zeroCounts : list (string * Z) :=
  map (fun b => (b, 0%Z)) AnalyticsDisplay.bucketOrder.

(** The counts [parseFilenames] reaches over keys that are all strings. *)
Fixpoint countsAfter (counts : list (string * Z)) (keys : list string)
  : list (string * Z) :=
  match keys with
  | [] => counts
  | key :: rest =>
      countsAfter
        (match bucketOfKey key with
         | Some name => AnalyticsDisplay.increment name counts
         | None => counts
         end) rest
  end.

(** ** Vocabulary of the further statements *)

(** [s.includes(c)] for one character. *)
Fixpoint hasChar (c : ascii) (s : string) : bool :=
  match s with
  | EmptyString => false
  | String d s' => Ascii.eqb d c || hasChar c s'
  end.

(** A custom-order document that [loadCustomOrder] reads without finding an
    order to use: its body does not parse, it is [null], or its [order] is
    missing or falsy. *)
Definition unusableOverride (r : Response) : Prop :=
  match json r with
  | inl _ => True
  | inr data =>
      match getProp data "order" with
      | inl _ => True
      | inr order => truthy order = false
      end
  end.

(** Networks for the examples: a custom-order document without an order, and
    one whose order is a text instead of an array. *)
Definition emptyOverrideNet : Network :=
  served
    [ (customOrderUrl (Some "u1"),
       document (VObj [("updated_at", VStr "2025-01-01T00:00:00Z")]));
      (manifestUrl (Some "u1"), document (VArr manifestEntries)) ].

Definition textOverrideNet : Network :=
  served
    [ (customOrderUrl (Some "u1"),
       document (VObj [("order", VStr "enhanced/u1/renamed/06-10(001)_|EX|_b.jpg")]));
      (manifestUrl (Some "u1"), document (VArr manifestEntries)) ].

(** A manifest with a [null] entry. *)
Definition holedNet : Network :=
  served
    [ (manifestUrl (Some "u1"),
       document (VArr (VNull :: manifestEntries))) ].

Definition okManifest (entries : list value) : Response :=
  {| status := 200; statusText := "OK"; json := inr (VArr entries) |}.

(** A manifest whose kept keys already stand in filename order. *)
Definition orderedEntries : list value :=
  [ VObj [("final_key", VStr "enhanced/u1/renamed/01-05(001)_|EX|_x_a.jpg")];
    VObj [("final_key", VStr "enhanced/u1/renamed/.ready")];
    VObj [("final_key", VStr "enhanced/u1/renamed/06-10(001)_|EX|_b.jpg")] ].

Definition orderedNet : Network :=
  served [ (manifestUrl (Some "u1"), document (VArr orderedEntries)) ].

(** The array without the element at an index: [arr.splice(index, 1)]
    read on the array. *)
Definition without {A} (index : nat) (arr : list A) : list A :=
  snd (splice index 1 [] arr).

(** A state for the examples whose gallery shows its three distinct keys. *)
Definition threeKeys : list string := ["k/a.jpg"; "k/b.jpg"; "k/c.jpg"].

Definition threePhotos : State :=
  {| photoOrder := map VStr threeKeys;
     uid := Some "u1";
     page :=
       {| loadingState := false; errorState := false; errorDetail := "";
          galleryContainer := true; downloadSection := true;
          bottomDownload := false;
          photoGallery := renderGallery (map entryOf threeKeys);
          photoCount := "3" |} |}.

(** A delete service that answers 500 with a refusal. *)
Definition refusingNet : Network :=
  served
    [ (DELETE_LAMBDA_URL,
       Resolved {| status := 500; statusText := "Internal Server Error";
                   json := inr (VObj [("success", VBool false);
                                      ("error", VStr "AccessDenied")]) |}) ].

(** An archive service that answers with a link. *)
Definition zippingNet : Network :=
  served
    [ (ZIP_LAMBDA_URL,
       document (VObj [("success", VBool true);
                       ("download_url", VStr "https://example.org/u1.zip");
                       ("photo_count", VNum 3);
                       ("email_sent", VBool true)])) ].

(** Whether a key counts for a given bucket. *)
Definition inBucket (name key : string) : bool :=
  match bucketOfKey key with
  | Some found => String.eqb found name
  | None => false
  end.

(** A network on which only the presentation settings of "u1" are served. *)
Definition settingsDocument : value :=
  VObj [("birthdate", VStr "1930-04-12"); ("deathdate", VStr "2020-11-03");
        ("deceased_full_name", VStr "A. Example")].

Definition settingsOnlyNet : Network :=
  served [ (settingsUrl "u1", document settingsDocument) ].

(** ** Vocabulary of the revised statements *)

(** [name] is the filename of [key]: what stands after the last '/' of the
    key, or the whole key when it has none. *)
Definition filenameOf (key name : string) : Prop :=
  hasChar "/" name = false
  /\ (key = name \/ exists dir : string, key = (dir ++ "/" ++ name)%string).

(** A collation for the examples that, as locale collations do, ranks
    letters before their case: texts are compared by code units after the
    ASCII capitals are lowered. *)
Definition lowerAscii (c : ascii) : ascii :=
  let n := nat_of_ascii c in
  if (65 <=? n)%nat && (n <=? 90)%nat then ascii_of_nat (n + 32) else c.

Fixpoint lowerCase (s : string) : string :=
  match s with
  | EmptyString => EmptyString
  | String c s' => String (lowerAscii c) (lowerCase s')
  end.

Definition letterOrder (a b : string) : Z := byteOrder (lowerCase a) (lowerCase b).

(** A manifest whose filenames differ in case. *)
Definition mixedCaseEntries : list value :=
  [ VObj [("final_key", VStr "enhanced/u1/renamed/IMG_2.jpg")];
    VObj [("final_key", VStr "enhanced/u1/renamed/.ready")];
    VObj [("final_key", VStr "enhanced/u1/renamed/img_1.jpg")] ].

Definition mixedCaseNet : Network :=
  served [ (manifestUrl (Some "u1"), document (VArr mixedCaseEntries)) ].

(** How often a key stands in the order: the elements [indexOf] would
    accept. *)
Fixpoint occurrences (key : string) (order : list value) : nat :=
  match order with
  | [] => 0
  | VStr t :: rest =>
      if String.eqb t key then S (occurrences key rest) else occurrences key rest
  | _ :: rest => occurrences key rest
  end.

(** * Properties *)

(** ** The embedding at work *)

Example decode_with_marker_only :
  extractOriginalFilename "enhanced/u1/renamed/21-30(014)_|FR|_my_x_photo.jpg"
  = "my_x_photo.jpg".
Proof. reflexivity. Qed.

Example decode_bare_marker :
  extractOriginalFilename "a/01-05(001)_|_x_y.jpg" = "y.jpg".
Proof. reflexivity. Qed.

Example manifest_failure_detail :
  errorDetail (page (onDOMContentLoaded byteOrder brokenNet (Some "u1") blankState))
  = "Failed to fetch manifest: 500 Internal Server Error".
Proof. reflexivity. Qed.

Example missing_uid_shows_error :
  errorState (page (onDOMContentLoaded byteOrder reviewedNet None blankState)) = true.
Proof. reflexivity. Qed.

Example fallback_order :
  photoOrder (onDOMContentLoaded byteOrder unreviewedNet (Some "u1") blankState)
  = map VStr ["enhanced/u1/renamed/01-05(001)_|EX|_x_a.jpg";
              "enhanced/u1/renamed/06-10(001)_|EX|_b.jpg"].
Proof. reflexivity. Qed.

Example drag_from_outside_inserts_undefined :
  photoOrder (onEnd 7 1 repeatedOrder)
  = [VStr "k/a.jpg"; VUndef; VStr "k/b.jpg"; VStr "k/a.jpg"].
Proof. reflexivity. Qed.

Example delete_renumbers :
  map itemNumber
    (photoGallery (page (deletePhoto true deletingNet "k/b.jpg" 1
       (withPage repeatedOrder
          (showLoading false
             {| loadingState := false; errorState := false; errorDetail := "";
                galleryContainer := true; downloadSection := true;
                bottomDownload := false;
                photoGallery := renderGallery (map entryOf ["k/a.jpg"; "k/b.jpg"; "k/a.jpg"]);
                photoCount := "3" |})))))
  = ["001"; "002"].
Proof. reflexivity. Qed.

Example histogram_of_two_keys :
  AnalyticsDisplay.init isoYear offline "u1"
    [VStr "r/01-05(003)_|EX|_x_photo.jpg"; VStr "r/81+(001)_|EX|_q.jpg"] true
  = Some {| AnalyticsDisplay.yearsLine := None;
            AnalyticsDisplay.ageRangeLine := Some "0-5 → 81+";
            AnalyticsDisplay.chart :=
              [ {| AnalyticsDisplay.barLabel := "0-5"; AnalyticsDisplay.barCount := 1;
                   AnalyticsDisplay.widthTimesMax := 100; AnalyticsDisplay.barMax := 1 |};
                {| AnalyticsDisplay.barLabel := "81+"; AnalyticsDisplay.barCount := 1;
                   AnalyticsDisplay.widthTimesMax := 100; AnalyticsDisplay.barMax := 1 |} ];
            AnalyticsDisplay.technicalLine :=
              Some (AnalyticsDisplay.PhotosOnly (VNum 2)) |}.
Proof. reflexivity. Qed.

Example manual_time_of_125_photos :
  AnalyticsDisplayGrid.calculateManualTime (VNum 125)
  = AnalyticsDisplayGrid.Text "1.1 hours".
Proof. reflexivity. Qed.

(** ** Splitting and joining *)

Lemma split_nonempty sep s : Js.split sep s <> [].
Proof.
  destruct s as [|c s]; simpl; [discriminate|].
  destruct (Ascii.eqb c sep); [discriminate|].
  destruct (Js.split sep s); discriminate.
Qed.

Lemma split_app_sep sep a b :
  Js.split sep (a ++ String sep b) = Js.split sep a ++ Js.split sep b.
Proof.
  induction a as [|c a IH]; simpl.
  - now rewrite Ascii.eqb_refl.
  - destruct (Ascii.eqb c sep); [now rewrite IH|].
    rewrite IH.
    destruct (Js.split sep a) eqn:E; [now apply split_nonempty in E|reflexivity].
Qed.

Lemma pop_app_nonempty {A} (l1 l2 : list A) :
  l2 <> [] -> Js.pop (l1 ++ l2) = Js.pop l2.
Proof.
  intros H. unfold Js.pop. rewrite rev_app_distr.
  destruct (rev l2) eqn:E; [|reflexivity].
  apply (f_equal (@rev A)) in E. rewrite rev_involutive in E. now subst.
Qed.

(** The basename of a key only depends on what follows its last '/'. *)
Lemma basename_app dir f : basename (dir ++ String "/" f) = basename f.
Proof.
  unfold basename. rewrite split_app_sep, pop_app_nonempty; [reflexivity|].
  apply split_nonempty.
Qed.

Lemma extractOriginalFilename_app dir f :
  extractOriginalFilename (dir ++ String "/" f) = extractOriginalFilename f.
Proof. unfold extractOriginalFilename. now rewrite basename_app. Qed.

(** Joining what was split gives the text back. *)
Lemma join_split sep s : Js.join (String sep "") (Js.split sep s) = s.
Proof.
  induction s as [|c s IH]; [reflexivity|]. simpl Js.split.
  pose proof (split_nonempty sep s) as Hne.
  destruct (Js.split sep s) as [|p ps] eqn:E; [contradiction|].
  destruct (Ascii.eqb c sep) eqn:Ec.
  - apply Ascii.eqb_eq in Ec. subst c.
    change (Js.join (String sep "") ("" :: p :: ps))
      with (String sep (Js.join (String sep "") (p :: ps))).
    now rewrite IH.
  - destruct ps as [|q qs].
    + simpl in *. now rewrite IH.
    + change (Js.join (String sep "") (String c p :: q :: qs))
        with (String c (Js.join (String sep "") (p :: q :: qs))).
      now rewrite IH.
Qed.

Lemma markerStart_none i parts :
  existsb isMethodMarker parts = false -> markerStart i parts = 0.
Proof.
  revert i. induction parts as [|p ps IH]; intros i H; [reflexivity|].
  simpl in *. apply orb_false_iff in H as [Hp Hps].
  rewrite Hp. now apply IH.
Qed.

(** ** Filename decoding *)

(** C4. The key of the specification's example decodes to "photo.jpg":
    written with the ellipsis as it stands in the text, and under every
    directory prefix; the tokens of the basename are the rank, the method
    marker '|EX|' at index 1, one 'x' at index 2, and the original name. *)
Theorem decode_example :
  extractOriginalFilename "…01-05(003)_|EX|_x_photo.jpg" = "photo.jpg"
  /\ (forall dir : string,
        basename (dir ++ "/01-05(003)_|EX|_x_photo.jpg")
          = "01-05(003)_|EX|_x_photo.jpg"
        /\ extractOriginalFilename (dir ++ "/01-05(003)_|EX|_x_photo.jpg")
          = "photo.jpg")
  /\ Js.split "_" "01-05(003)_|EX|_x_photo.jpg"
       = ["01-05(003)"; "|EX|"; "x"; "photo.jpg"]
  /\ markerStart 0 ["01-05(003)"; "|EX|"; "x"; "photo.jpg"] = 2.
Proof.
  split; [reflexivity|]. split; [|split; reflexivity].
  intros dir.
  change (dir ++ "/01-05(003)_|EX|_x_photo.jpg")%string
    with (dir ++ String "/" "01-05(003)_|EX|_x_photo.jpg")%string.
  now rewrite basename_app, extractOriginalFilename_app.
Qed.

(** C2, as the specification states it, fails: the basename "x_photo.jpg"
    has no method marker, and yet its first token is dropped. *)
Lemma decode_without_marker_counterexample :
  existsb isMethodMarker (Js.split "_" (basename "uploads/x_photo.jpg")) = false
  /\ basename "uploads/x_photo.jpg" = "x_photo.jpg"
  /\ extractOriginalFilename "uploads/x_photo.jpg" = "photo.jpg"
  /\ extractOriginalFilename "uploads/x_photo.jpg" <> basename "uploads/x_photo.jpg".
Proof. repeat split; try reflexivity. discriminate. Qed.

(** C2, amended. When no underscore-separated token of the basename is a
    method marker, the decoder returns the basename unchanged provided its
    first token is not exactly "x"; when it is, that one token is skipped:
    "x_REST" gives "REST" and "x" gives the empty text. *)
Theorem decode_without_marker (key : string) :
  existsb isMethodMarker (Js.split "_" (basename key)) = false ->
  (hd_error (Js.split "_" (basename key)) <> Some "x" ->
     extractOriginalFilename key = basename key)
  /\ (forall rest : string,
        basename key = ("x_" ++ rest)%string -> extractOriginalFilename key = rest)
  /\ (basename key = "x" -> extractOriginalFilename key = "").
Proof.
  intros Hno. unfold extractOriginalFilename.
  rewrite (markerStart_none 0 _ Hno).
  repeat split.
  - intros Hx. pose proof (join_split "_" (basename key)) as Hjs.
    destruct (Js.split "_" (basename key)) as [|p ps]; [exact Hjs|].
    cbn [nth_error]. simpl in Hx.
    destruct (String.eqb p "x") eqn:E; [|exact Hjs].
    apply String.eqb_eq in E. subst p. now contradiction Hx.
  - intros rest Hb. rewrite Hb.
    change ("x_" ++ rest)%string with ("x" ++ String "_" rest)%string.
    rewrite split_app_sep. simpl. apply join_split.
  - intros Hb. rewrite Hb. reflexivity.
Qed.

Lemma decode_without_marker_witness :
  extractOriginalFilename "enhanced/u1/renamed/my_photo.jpg" = "my_photo.jpg"
  /\ extractOriginalFilename "enhanced/u1/renamed/x_ray.jpg" = "ray.jpg".
Proof.
  split.
  - apply (proj1 (decode_without_marker "enhanced/u1/renamed/my_photo.jpg"
                    eq_refl)).
    discriminate.
  - apply (proj1 (proj2 (decode_without_marker "enhanced/u1/renamed/x_ray.jpg"
                           eq_refl))).
    reflexivity.
Defined.

(** ** Order resolution *)

Lemma mapM_customEntry keys :
  mapM customEntry (map VStr keys) = inr (map entryOf keys).
Proof.
  induction keys as [|k ks IH]; [reflexivity|].
  simpl. rewrite IH. reflexivity.
Qed.

Lemma itemKey_numberFrom i keys : map itemKey (numberFrom i keys) = keys.
Proof.
  revert i. induction keys as [|k ks IH]; intros i; [reflexivity|].
  simpl. now rewrite IH.
Qed.

Lemma s3Key_entryOf keys : map s3Key (map entryOf keys) = keys.
Proof.
  induction keys as [|k ks IH]; [reflexivity|]. simpl. now rewrite IH.
Qed.

(** What [loadPhotos] leaves when the entries resolve. *)
Lemma loadPhotos_returns cmp net st entries :
  snd (resolveEntries cmp net (uid st)) = inr entries ->
  exists st',
    loadPhotos cmp net st = (st', None)
    /\ photoOrder st' = map (fun entry => VStr (s3Key entry)) entries
    /\ map itemKey (photoGallery (page st')) = map s3Key entries
    /\ errorState (page st') = errorState (page st)
    /\ errorDetail (page st') = errorDetail (page st)
    /\ loadingState (page st') = false
    /\ galleryContainer (page st') = true.
Proof.
  intros H. unfold loadPhotos. cbn [withPage uid]. rewrite H.
  eexists. split; [reflexivity|].
  cbn [photoOrder page showLoading photoGallery errorState errorDetail
       loadingState galleryContainer negb].
  unfold renderGallery. rewrite itemKey_numberFrom.
  repeat split; reflexivity.
Qed.

Lemma loadPhotos_resolved cmp net st keys :
  snd (resolveEntries cmp net (uid st)) = inr (map entryOf keys) ->
  exists st',
    loadPhotos cmp net st = (st', None)
    /\ photoOrder st' = map VStr keys
    /\ map itemKey (photoGallery (page st')) = keys.
Proof.
  intros H.
  destruct (loadPhotos_returns cmp net st _ H) as (st' & H1 & H2 & H3 & _).
  exists st'. rewrite <- (map_map s3Key VStr), s3Key_entryOf in H2.
  rewrite s3Key_entryOf in H3. auto.
Qed.

Lemma loadPhotos_thrown cmp net st e :
  snd (resolveEntries cmp net (uid st)) = inl e ->
  loadPhotos cmp net st = (withPage st (showLoading true (page st)), Some e).
Proof. intros H. unfold loadPhotos. cbn [withPage uid]. now rewrite H. Qed.

(** C1. When the custom-order fetch returns a list of keys, of any length,
    [loadPhotos] finishes without throwing, [photoOrder] is that list in its
    own sequence, the gallery shows the same sequence, and the manifest is
    not even requested: whatever it holds plays no part. *)
Theorem custom_order_verbatim (localeCompare : string -> string -> Z)
  (net : Network) (st : State) (keys : list string) :
  loadCustomOrder net (uid st) = VArr (map VStr keys) ->
  exists st',
    loadPhotos localeCompare net st = (st', None)
    /\ photoOrder st' = map VStr keys
    /\ map itemKey (photoGallery (page st')) = keys
    /\ fst (resolveEntries localeCompare net (uid st))
       = [GET (customOrderUrl (uid st))].
Proof.
  intros H.
  assert (Hres : resolveEntries localeCompare net (uid st)
                 = ([GET (customOrderUrl (uid st))], inr (map entryOf keys))).
  { unfold resolveEntries. rewrite H. cbn [truthy entriesOfCustomOrder].
    now rewrite mapM_customEntry. }
  destruct (loadPhotos_resolved localeCompare net st keys) as (st' & H1 & H2 & H3).
  { now rewrite Hres. }
  exists st'. rewrite Hres. auto.
Qed.

Lemma custom_order_verbatim_witness :
  exists st',
    loadPhotos byteOrder reviewedNet orderU1 = (st', None)
    /\ photoOrder st' = map VStr reviewedOrder
    /\ map itemKey (photoGallery (page st')) = reviewedOrder
    /\ fst (resolveEntries byteOrder reviewedNet (uid orderU1))
       = [GET (customOrderUrl (uid orderU1))].
Proof.
  apply (custom_order_verbatim byteOrder reviewedNet orderU1 reviewedOrder).
  reflexivity.
Defined.

(** ** The fallback order *)

Section Sorting.

Context {A : Type} (cmp : A -> A -> Z).

Hypothesis cmp_total : forall a b, notAfter cmp a b \/ notAfter cmp b a.

Lemma insertSorted_perm x l : Permutation (insertSorted cmp x l) (x :: l).
Proof.
  induction l as [|y l IH]; simpl; [reflexivity|].
  destruct (cmp x y <=? 0)%Z; [reflexivity|].
  rewrite IH. apply perm_swap.
Qed.

Lemma sort_perm l : Permutation (sort cmp l) l.
Proof.
  induction l as [|x l IH]; simpl; [reflexivity|].
  rewrite insertSorted_perm. now constructor.
Qed.

Lemma insertSorted_hd x y l :
  notAfter cmp y x -> HdRel (notAfter cmp) y l ->
  HdRel (notAfter cmp) y (insertSorted cmp x l).
Proof.
  intros Hyx Hl. destruct l as [|z l]; simpl.
  - now constructor.
  - destruct (cmp x z <=? 0)%Z; constructor; [assumption|].
    now inversion Hl.
Qed.

Lemma insertSorted_sorted x l :
  Sorted (notAfter cmp) l -> Sorted (notAfter cmp) (insertSorted cmp x l).
Proof.
  induction 1 as [|y l Hs IH Hhd]; simpl.
  - repeat constructor.
  - destruct (cmp x y <=? 0)%Z eqn:E.
    + apply Z.leb_le in E. repeat constructor; assumption.
    + apply Z.leb_gt in E. constructor; [assumption|].
      apply insertSorted_hd; [|assumption].
      destruct (cmp_total x y) as [H|H]; [unfold notAfter in H; lia|exact H].
Qed.

Lemma sort_sorted l : Sorted (notAfter cmp) (sort cmp l).
Proof.
  induction l as [|x l IH]; simpl; [constructor|].
  now apply insertSorted_sorted.
Qed.

End Sorting.

(** Sorting the entries by filename is sorting the keys by basename. *)
Lemma insertSorted_entryOf cmp k ks :
  insertSorted (compareEntries cmp) (entryOf k) (map entryOf ks)
  = map entryOf
      (insertSorted (byFilename cmp) k ks).
Proof.
  induction ks as [|y ks IH]; [reflexivity|].
  simpl. unfold compareEntries at 1, byFilename at 1. cbn [filename entryOf].
  destruct (cmp (basename k) (basename y) <=? 0)%Z; [reflexivity|].
  simpl. now rewrite IH.
Qed.

Lemma sort_entryOf cmp keys :
  sort (compareEntries cmp) (map entryOf keys)
  = map entryOf (sort (byFilename cmp) keys).
Proof.
  induction keys as [|k ks IH]; [reflexivity|].
  simpl. rewrite IH. apply insertSorted_entryOf.
Qed.

(** On a well-formed entry the callbacks of the filter and of the map do
    not throw. *)
Lemma keepEntry_wellFormed entry :
  wellFormedEntry entry = true ->
  keepEntry entry = inr (isKept entry)
  /\ (forall key, keptKey entry = Some key -> manifestEntry entry = inr (entryOf key)).
Proof.
  intros Hwf. unfold keepEntry, manifestEntry, isKept, keptKey.
  destruct entry as [| |b|n|t|xs|props]; try discriminate Hwf;
    try (split; [reflexivity|discriminate]).
  cbn [getProp bind]. simpl in Hwf.
  destruct (lookup "final_key" props) as [v|];
    [|split; [reflexivity|discriminate]].
  destruct v as [| |b|n|t|xs|ps]; simpl in Hwf; try discriminate Hwf;
    try (split; [reflexivity|discriminate]).
  - apply negb_true_iff in Hwf. subst b. split; [reflexivity|discriminate].
  - apply negb_true_iff in Hwf. simpl. rewrite Hwf.
    split; [reflexivity|discriminate].
  - simpl. destruct (String.eqb t ""); simpl.
    + split; [reflexivity|discriminate].
    + destruct (Js.endsWith t ".ready"); simpl;
        (split; [reflexivity|]); [discriminate|].
      intros key [= <-]. reflexivity.
Qed.

Lemma filterM_keepEntry entries :
  forallb wellFormedEntry entries = true ->
  filterM keepEntry entries = inr (filter isKept entries).
Proof.
  induction entries as [|e es IH]; [reflexivity|].
  simpl forallb. intros H. apply andb_true_iff in H as [He Hes].
  simpl. rewrite (proj1 (keepEntry_wellFormed e He)), (IH Hes). reflexivity.
Qed.

Lemma mapM_manifestEntry entries :
  forallb wellFormedEntry entries = true ->
  mapM manifestEntry (filter isKept entries) = inr (map entryOf (keptKeys entries)).
Proof.
  induction entries as [|e es IH]; [reflexivity|].
  simpl forallb. intros H. apply andb_true_iff in H as [He Hes].
  simpl. unfold isKept at 1.
  destruct (keptKey e) as [key|] eqn:Ek; [|now apply IH].
  simpl. rewrite (proj2 (keepEntry_wellFormed e He) key Ek), (IH Hes).
  reflexivity.
Qed.

(** The manifest branch on a well-formed manifest. *)
Lemma entriesOfManifest_wellFormed cmp net u r entries :
  net (GET (manifestUrl u)) = Resolved r ->
  ok r = true ->
  json r = inr (VArr entries) ->
  forallb wellFormedEntry entries = true ->
  entriesOfManifest cmp net u
  = inr (map entryOf (sort (byFilename cmp) (keptKeys entries))).
Proof.
  intros Hnet Hok Hjson Hwf. unfold entriesOfManifest.
  rewrite Hnet, Hok, Hjson. cbn [bind].
  rewrite (filterM_keepEntry _ Hwf). cbn [bind].
  rewrite (mapM_manifestEntry _ Hwf). cbn [bind].
  now rewrite sort_entryOf.
Qed.

Lemma byteOrder_le a b : (byteOrder a b <= 0)%Z <-> String.compare a b <> Gt.
Proof.
  unfold byteOrder. destruct (String.compare a b); split; intros H;
    try lia; try discriminate; now contradiction H.
Qed.

Lemma ascii_compare_trans a b c :
  Ascii.compare a b = Lt -> Ascii.compare b c = Lt -> Ascii.compare a c = Lt.
Proof.
  unfold Ascii.compare. rewrite !N.compare_lt_iff. apply N.lt_trans.
Qed.

Lemma ascii_compare_eq a b : Ascii.compare a b = Eq -> a = b.
Proof.
  unfold Ascii.compare. rewrite N.compare_eq_iff. intros H.
  rewrite <- (ascii_N_embedding a), <- (ascii_N_embedding b). now rewrite H.
Qed.

Lemma string_compare_not_gt_trans a :
  forall b c,
    String.compare a b <> Gt -> String.compare b c <> Gt ->
    String.compare a c <> Gt.
Proof.
  induction a as [|x a IH]; intros b c Hab Hbc.
  - destruct c; discriminate.
  - destruct b as [|y b]; [now contradiction Hab|].
    destruct c as [|z c]; [now contradiction Hbc|].
    simpl in *.
    destruct (Ascii.compare x y) eqn:Exy; [| |now contradiction Hab].
    + apply ascii_compare_eq in Exy. subst y.
      destruct (Ascii.compare x z); [|discriminate|now contradiction Hbc].
      now apply IH with (b := b).
    + destruct (Ascii.compare y z) eqn:Eyz; [| |now contradiction Hbc].
      * apply ascii_compare_eq in Eyz. subst z. now rewrite Exy.
      * now rewrite (ascii_compare_trans x y z Exy Eyz).
Qed.

Lemma byteOrder_consistent : Consistent byteOrder.
Proof.
  split.
  - intros a b. rewrite !byteOrder_le, (String.compare_antisym a b).
    destruct (String.compare b a); simpl; [left|right|left]; discriminate.
  - intros a b c. rewrite !byteOrder_le. apply string_compare_not_gt_trans.
Qed.

(** ** The two tiers of failure *)

Lemma append_inj_l p a b : (p ++ a)%string = (p ++ b)%string -> a = b.
Proof. induction p as [|c p IH]; simpl; [auto|]. intros [= H]. auto. Qed.

Lemma manifestUrl_not_customOrderUrl u :
  GET (manifestUrl u) <> GET (customOrderUrl u).
Proof.
  intros [= H]. unfold manifestUrl, customOrderUrl in H.
  repeat apply append_inj_l in H. discriminate H.
Qed.

Lemma loadCustomOrder_failed net u :
  fetchFailed (net (GET (customOrderUrl u))) = true ->
  loadCustomOrder net u = VNull.
Proof.
  unfold loadCustomOrder, fetchFailed.
  destruct (net (GET (customOrderUrl u))) as [e|r]; [reflexivity|].
  intros H. apply negb_true_iff in H. now rewrite H.
Qed.

Lemma entriesOfManifest_failed cmp net u :
  fetchFailed (net (GET (manifestUrl u))) = true ->
  exists e, entriesOfManifest cmp net u = inl e.
Proof.
  unfold entriesOfManifest, fetchFailed.
  destruct (net (GET (manifestUrl u))) as [e|r]; [now exists e|].
  intros H. apply negb_true_iff in H. rewrite H. eauto.
Qed.

Lemma onDOMContentLoaded_uid cmp net u st :
  u <> "" ->
  onDOMContentLoaded cmp net (Some u) st =
    let st0 := {| photoOrder := photoOrder st; uid := Some u; page := page st |} in
    match loadPhotos cmp net st0 with
    | (st', None) => st'
    | (st', Some error) => withPage st' (showError (message error) (page st'))
    end.
Proof. intros Hu. destruct u; [now contradiction Hu|reflexivity]. Qed.

(** C5. A manifest request that is made and fails, by rejection or by a
    non-ok status, makes [loadPhotos] throw, and the page-load handler then
    shows the error state in place of the loading state and the gallery.  A
    custom-order request that fails makes [loadCustomOrder] return [null];
    the entries are then those of the manifest branch, and when that branch
    succeeds nothing is thrown and the error state and its detail are left
    as they were. *)
Theorem two_tier_errors (localeCompare : string -> string -> Z)
  (net : Network) (u : string) (st : State) :
  u <> "" ->
  let st0 := {| photoOrder := photoOrder st; uid := Some u; page := page st |} in
  let final := onDOMContentLoaded localeCompare net (Some u) st in
  (In (GET (manifestUrl (Some u))) (fst (resolveEntries localeCompare net (Some u))) ->
   fetchFailed (net (GET (manifestUrl (Some u)))) = true ->
   (exists e, snd (loadPhotos localeCompare net st0) = Some e)
   /\ errorState (page final) = true
   /\ loadingState (page final) = false
   /\ galleryContainer (page final) = false
   /\ downloadSection (page final) = false)
  /\
  (fetchFailed (net (GET (customOrderUrl (Some u)))) = true ->
   loadCustomOrder net (Some u) = VNull
   /\ resolveEntries localeCompare net (Some u)
      = ([GET (customOrderUrl (Some u)); GET (manifestUrl (Some u))],
         entriesOfManifest localeCompare net (Some u))
   /\ (forall entries,
         entriesOfManifest localeCompare net (Some u) = inr entries ->
         snd (loadPhotos localeCompare net st0) = None
         /\ photoOrder final = map (fun entry => VStr (s3Key entry)) entries
         /\ errorState (page final) = errorState (page st)
         /\ errorDetail (page final) = errorDetail (page st))).
Proof.
  intros Hu st0 final. subst final.
  rewrite (onDOMContentLoaded_uid _ _ _ _ Hu). fold st0. cbv zeta.
  split.
  - intros Hin Hfail.
    assert (Hres : exists e, snd (resolveEntries localeCompare net (uid st0)) = inl e).
    { unfold resolveEntries in *. cbn [uid st0].
      destruct (truthy (loadCustomOrder net (Some u))).
      - cbn [fst] in Hin. destruct Hin as [Heq|[]].
        symmetry in Heq. now apply manifestUrl_not_customOrderUrl in Heq.
      - cbn [snd]. now apply entriesOfManifest_failed. }
    destruct Hres as [e He].
    rewrite (loadPhotos_thrown _ _ _ _ He). cbn.
    repeat split; try reflexivity. now exists e.
  - intros Hfail. pose proof (loadCustomOrder_failed _ _ Hfail) as Hnull.
    assert (Hres : resolveEntries localeCompare net (Some u)
                   = ([GET (customOrderUrl (Some u)); GET (manifestUrl (Some u))],
                      entriesOfManifest localeCompare net (Some u))).
    { unfold resolveEntries. now rewrite Hnull. }
    repeat split; try assumption;
      destruct (loadPhotos_returns localeCompare net st0 entries)
        as (st' & H1 & H2 & _ & H4 & H5 & _);
      try (cbn [uid st0]; rewrite Hres; assumption);
      rewrite H1; cbn [snd]; auto.
Qed.

Lemma two_tier_errors_witness :
  errorState (page (onDOMContentLoaded byteOrder brokenNet (Some "u1") blankState))
    = true
  /\ loadCustomOrder unreviewedNet (Some "u1") = VNull
  /\ errorState (page (onDOMContentLoaded byteOrder unreviewedNet (Some "u1") blankState))
    = false.
Proof.
  assert (Hu : "u1" <> "") by discriminate.
  split; [|split].
  - apply (proj1 (two_tier_errors byteOrder brokenNet "u1" blankState Hu)).
    + right. left. reflexivity.
    + reflexivity.
  - apply (proj2 (two_tier_errors byteOrder unreviewedNet "u1" blankState Hu)).
    reflexivity.
  - destruct (proj2 (two_tier_errors byteOrder unreviewedNet "u1" blankState Hu)
                eq_refl) as (_ & _ & Hfallback).
    destruct (Hfallback _ eq_refl) as (_ & _ & Herror & _).
    exact Herror.
Defined.

(** ** Reorder, download, delete *)

Lemma stringified_keys keys :
  stringified (VArr (map VStr keys)) = VArr (map VStr keys).
Proof.
  simpl. f_equal. induction keys as [|k ks IH]; [reflexivity|].
  simpl. now rewrite IH.
Qed.

Lemma downloadRequest_body u keys pg :
  reqBody (downloadRequest {| photoOrder := map VStr keys; uid := u; page := pg |})
  = Some (VObj [("uid", uidValue u); ("photo_order", VArr (map VStr keys))]).
Proof.
  unfold downloadRequest, POST. cbn [reqBody photoOrder uid].
  pose proof (stringified_keys keys) as H. simpl in H. injection H as H.
  destruct u; simpl; rewrite H; reflexivity.
Qed.

(** C9. Dragging the item at index 2 of a five-key order to index 0 leaves
    the moved key first and the others in their sequence; [downloadAll]
    posts to the archive service a body whose [photo_order] is the array
    [photoOrder] holds at that moment, so after the drag it is that very
    permutation. *)
Theorem reorder_then_download (net : Network) (a b c d e : string)
  (u : option string) (pg : Page) :
  let st := {| photoOrder := map VStr [a; b; c; d; e]; uid := u; page := pg |} in
  photoOrder (onEnd 2 0 st) = map VStr [c; a; b; d; e]
  /\ (forall (keys : list string) (pg' : Page),
        let st' := {| photoOrder := map VStr keys; uid := u; page := pg' |} in
        reqUrl (fst (downloadAll net st')) = ZIP_LAMBDA_URL
        /\ reqMethod (fst (downloadAll net st')) = "POST"
        /\ bodyField "photo_order" (fst (downloadAll net st'))
           = Some (VArr (photoOrder st')))
  /\ bodyField "photo_order" (fst (downloadAll net (onEnd 2 0 st)))
     = Some (VArr (map VStr [c; a; b; d; e])).
Proof.
  intros st. split; [reflexivity|]. split.
  - intros keys pg' st'. unfold downloadAll. cbn [fst].
    split; [reflexivity|]. split; [reflexivity|].
    unfold bodyField. subst st'. rewrite downloadRequest_body. reflexivity.
  - unfold downloadAll, bodyField. cbn [fst].
    change (onEnd 2 0 st)
      with {| photoOrder := map VStr [c; a; b; d; e]; uid := u;
              page := page (onEnd 2 0 st) |}.
    rewrite downloadRequest_body. reflexivity.
Qed.

Lemma indexOfFrom_absent i key order :
  ~ In (VStr key) order -> indexOfFrom i key order = (-1)%Z.
Proof.
  revert i. induction order as [|v order IH]; intros i Hnot; [reflexivity|].
  assert (Hrest : ~ In (VStr key) order) by (intros H; apply Hnot; now right).
  destruct v; simpl; try now apply IH.
  destruct (String.eqb s key) eqn:E; [|now apply IH].
  apply String.eqb_eq in E. subst s. exfalso. apply Hnot. now left.
Qed.

Lemma indexOfFrom_first i key before rest :
  ~ In (VStr key) before ->
  indexOfFrom i key (before ++ VStr key :: rest)
  = (i + Z.of_nat (List.length before))%Z.
Proof.
  revert i. induction before as [|v before IH]; intros i Hnot.
  - simpl. rewrite String.eqb_refl. lia.
  - assert (Hrest : ~ In (VStr key) before) by (intros H; apply Hnot; now right).
    assert (Hstep : indexOfFrom (i + 1) key (before ++ VStr key :: rest)
                    = (i + Z.of_nat (List.length (v :: before)))%Z).
    { rewrite (IH (i + 1)%Z Hrest). simpl List.length. lia. }
    destruct v; simpl app; cbn [indexOfFrom]; try exact Hstep.
    destruct (String.eqb s key) eqn:E; [|exact Hstep].
    apply String.eqb_eq in E. subst s. exfalso. apply Hnot. now left.
Qed.

Lemma removeFromOrder_absent key order :
  ~ In (VStr key) order -> removeFromOrder key order = order.
Proof.
  intros H. unfold removeFromOrder, indexOf.
  now rewrite (indexOfFrom_absent 0 key order H).
Qed.

Lemma removeFromOrder_first key before rest :
  ~ In (VStr key) before ->
  removeFromOrder key (before ++ VStr key :: rest) = before ++ rest.
Proof.
  intros H. unfold removeFromOrder, indexOf.
  rewrite (indexOfFrom_first 0 key before rest H).
  replace (-1 <? 0 + Z.of_nat (List.length before))%Z with true
    by (symmetry; apply Z.ltb_lt; lia).
  replace (Z.to_nat (0 + Z.of_nat (List.length before))) with (List.length before)
    by lia.
  unfold splice. cbn [snd app].
  rewrite firstn_app, firstn_all, Nat.sub_diag. cbn [firstn].
  rewrite app_nil_r. f_equal.
  rewrite skipn_app, skipn_all2 by lia.
  replace (List.length before + 1 - List.length before) with 1 by lia.
  reflexivity.
Qed.

(** The first occurrence of a key splits the order around it. *)
Lemma first_occurrence key order :
  In (VStr key) order ->
  exists before rest,
    order = before ++ VStr key :: rest /\ ~ In (VStr key) before.
Proof.
  induction order as [|v order IH]; intros Hin; [contradiction|].
  assert (Hdec : v = VStr key \/ v <> VStr key).
  { destruct v; try (right; discriminate).
    destruct (String.eqb s key) eqn:E.
    - apply String.eqb_eq in E. subst. now left.
    - apply String.eqb_neq in E. right. intros [= H]. contradiction. }
  destruct Hdec as [-> | Hne].
  - exists [], order. split; [reflexivity|]. intros [].
  - destruct Hin as [Heq | Hin]; [contradiction|].
    destruct (IH Hin) as (before & rest & -> & Hnot).
    exists (v :: before), rest. split; [reflexivity|].
    intros [H | H]; [contradiction|]. now apply Hnot.
Qed.

(** C10. On both paths of [deletePhoto] that update the order - the
    request was answered, or it was rejected with a message mentioning CORS
    or NetworkError - a key that occurs in [photoOrder] loses its first
    occurrence and nothing else: the elements before and after it stay in
    sequence and the length drops by one; a key that does not occur leaves
    [photoOrder] as it was. *)
Theorem delete_removes_first_occurrence (net : Network) (key : string)
  (clicked : nat) (st : State) :
  deletePath true net key st = Responded
  \/ deletePath true net key st = CorsSuspected ->
  let after := photoOrder (deletePhoto true net key clicked st) in
  (In (VStr key) (photoOrder st) ->
   exists before rest,
     photoOrder st = before ++ VStr key :: rest
     /\ ~ In (VStr key) before
     /\ after = before ++ rest
     /\ S (List.length after) = List.length (photoOrder st))
  /\ (~ In (VStr key) (photoOrder st) -> after = photoOrder st).
Proof.
  intros Hpath after.
  assert (Hafter : after = removeFromOrder key (photoOrder st)).
  { subst after. unfold deletePhoto. now destruct Hpath as [-> | ->]. }
  rewrite Hafter. split.
  - intros Hin. destruct (first_occurrence key _ Hin) as (before & rest & Heq & Hnot).
    exists before, rest. rewrite Heq, (removeFromOrder_first key before rest Hnot).
    repeat split; try assumption.
    rewrite !length_app. simpl. lia.
  - apply removeFromOrder_absent.
Qed.

Lemma delete_removes_first_occurrence_witness :
  (let after := photoOrder (deletePhoto true deletingNet "k/a.jpg" 0 repeatedOrder) in
   (In (VStr "k/a.jpg") (photoOrder repeatedOrder) ->
    exists before rest,
      photoOrder repeatedOrder = before ++ VStr "k/a.jpg" :: rest
      /\ ~ In (VStr "k/a.jpg") before
      /\ after = before ++ rest
      /\ S (List.length after) = List.length (photoOrder repeatedOrder))
   /\ (~ In (VStr "k/a.jpg") (photoOrder repeatedOrder) ->
       after = photoOrder repeatedOrder))
  /\ (let after := photoOrder (deletePhoto true blockedNet "k/z.jpg" 0 repeatedOrder) in
      (In (VStr "k/z.jpg") (photoOrder repeatedOrder) ->
       exists before rest,
         photoOrder repeatedOrder = before ++ VStr "k/z.jpg" :: rest
         /\ ~ In (VStr "k/z.jpg") before
         /\ after = before ++ rest
         /\ S (List.length after) = List.length (photoOrder repeatedOrder))
      /\ (~ In (VStr "k/z.jpg") (photoOrder repeatedOrder) ->
          after = photoOrder repeatedOrder)).
Proof.
  split.
  - apply (delete_removes_first_occurrence deletingNet "k/a.jpg" 0 repeatedOrder).
    left. reflexivity.
  - apply (delete_removes_first_occurrence blockedNet "k/z.jpg" 0 repeatedOrder).
    right. reflexivity.
Defined.

(** ** Years of memories *)

(** C6. [calculateYearsOfMemories] gives the year of the death date minus
    the year of the birth date when both dates are present and the
    difference is positive, and [null] in every other case: a date missing,
    a date the host cannot read, equal years, a negative difference.  Years
    1930 and 2020 give 90; equal years give [null]. *)
Theorem years_of_memories (fullYear : value -> option Z)
  (stats : list (string * value)) :
  let birthdate := statOf "birthdate" stats in
  let deathdate := statOf "deathdate" stats in
  let result := calculateYearsOfMemories fullYear stats in
  (truthy birthdate = false \/ truthy deathdate = false -> result = VNull)
  /\ (fullYear birthdate = None \/ fullYear deathdate = None -> result = VNull)
  /\ (forall birth death : Z,
        truthy birthdate = true -> truthy deathdate = true ->
        fullYear birthdate = Some birth -> fullYear deathdate = Some death ->
        ((0 < death - birth)%Z -> result = VNum (death - birth))
        /\ ((death - birth <= 0)%Z -> result = VNull)
        /\ (birth = 1930%Z -> death = 2020%Z -> result = VNum 90)
        /\ (birth = death -> result = VNull)).
Proof.
  intros birthdate deathdate result. subst result.
  unfold calculateYearsOfMemories. fold birthdate deathdate.
  split; [|split].
  - intros [H | H]; rewrite H; [reflexivity|].
    now rewrite andb_false_r.
  - intros [H | H]; rewrite H; destruct (truthy birthdate && truthy deathdate);
      try reflexivity.
    now destruct (fullYear deathdate).
  - intros birth death Hb Hd Hyb Hyd. rewrite Hb, Hd, Hyb, Hyd. cbn [andb].
    repeat split.
    + intros H. apply Z.ltb_lt in H. now rewrite H.
    + intros H. apply Z.ltb_ge in H. now rewrite H.
    + intros -> ->. reflexivity.
    + intros ->. now rewrite Z.sub_diag.
Qed.

Lemma years_of_memories_witness :
  calculateYearsOfMemories isoYear
    [("birthdate", VStr "1930-04-12"); ("deathdate", VStr "2020-11-03")] = VNum 90
  /\ calculateYearsOfMemories isoYear
       [("birthdate", VStr "1950-01-02"); ("deathdate", VStr "1950-12-30")] = VNull
  /\ calculateYearsOfMemories isoYear
       [("birthdate", VNull); ("deathdate", VStr "1950-12-30")] = VNull.
Proof.
  split; [|split].
  - apply (proj2 (proj2 (years_of_memories isoYear
        [("birthdate", VStr "1930-04-12"); ("deathdate", VStr "2020-11-03")]))
        1930%Z 2020%Z eq_refl eq_refl eq_refl eq_refl); reflexivity.
  - apply (proj2 (proj2 (years_of_memories isoYear
        [("birthdate", VStr "1950-01-02"); ("deathdate", VStr "1950-12-30")]))
        1950%Z 1950%Z eq_refl eq_refl eq_refl eq_refl). reflexivity.
  - apply (proj1 (years_of_memories isoYear
        [("birthdate", VNull); ("deathdate", VStr "1950-12-30")])).
    left. reflexivity.
Defined.

(** ** The render gate *)

(** C8, as the specification states it, fails in both revisions.  In the
    histogram revision the face count does not open the gate: with the
    processing statistics served (1200 faces) and keys that carry no age
    bucket, [init] inserts nothing.  In the stats-grid revision the age-range
    label does not open it. *)
Lemma render_gate_counterexample :
  AnalyticsDisplay.aggregate isoYear statsOnlyNet "u1" unbucketedOrder
  = inr [("photoCount", VNum 2); ("ageRangeLabel", VNull); ("bucketCounts", VNull);
         ("totalFacesIndexed", VNum 1200); ("totalPhotosProcessed", VNum 2);
         ("yearsOfMemories", VNull)]
  /\ truthy (VNum 1200) = true
  /\ AnalyticsDisplay.render true
       [("photoCount", VNum 2); ("ageRangeLabel", VNull); ("bucketCounts", VNull);
        ("totalFacesIndexed", VNum 1200); ("totalPhotosProcessed", VNum 2);
        ("yearsOfMemories", VNull)] = None
  /\ AnalyticsDisplay.init isoYear statsOnlyNet "u1" unbucketedOrder true = None
  /\ truthy (statOf "ageRangeLabel" [("ageRangeLabel", VStr "0-5 → 81+")]) = true
  /\ AnalyticsDisplayGrid.render true [("ageRangeLabel", VStr "0-5 → 81+")] = None.
Proof. repeat split; reflexivity. Qed.

(** C8, amended. [render] inserts nothing unless a headline figure is
    present, and each revision's gate looks at two of the three figures: the
    histogram revision inserts its box exactly when the page has the
    [.photo-count] element and years-of-memories or the age-range label is
    truthy; the stats-grid revision exactly when the page has that element
    and the face count or years-of-memories is truthy. *)
Theorem render_gate (photoCountEl : bool) (stats : list (string * value)) :
  let years := truthy (statOf "yearsOfMemories" stats) in
  let faces := truthy (statOf "totalFacesIndexed" stats) in
  let label := truthy (statOf "ageRangeLabel" stats) in
  (AnalyticsDisplay.render photoCountEl stats <> None
     <-> photoCountEl = true /\ (years = true \/ label = true))
  /\ (AnalyticsDisplayGrid.render photoCountEl stats <> None
     <-> photoCountEl = true /\ (faces = true \/ years = true))
  /\ (AnalyticsDisplay.render photoCountEl stats <> None
      \/ AnalyticsDisplayGrid.render photoCountEl stats <> None ->
      years = true \/ faces = true \/ label = true).
Proof.
  intros years faces label.
  unfold AnalyticsDisplay.render, AnalyticsDisplay.notEnoughData,
    AnalyticsDisplayGrid.render, AnalyticsDisplayGrid.notEnoughData.
  fold years faces label.
  destruct years, faces, label, photoCountEl; cbn;
    repeat split; intros; try discriminate; try tauto; try intuition discriminate.
Qed.

Lemma render_gate_witness :
  AnalyticsDisplay.render true [("ageRangeLabel", VStr "0-5 → 81+")] <> None
  /\ AnalyticsDisplayGrid.render true [("totalFacesIndexed", VNum 1200)] <> None.
Proof.
  split.
  - apply (proj1 (render_gate true [("ageRangeLabel", VStr "0-5 → 81+")])).
    split; [reflexivity|]. right. reflexivity.
  - apply (proj1 (proj2 (render_gate true [("totalFacesIndexed", VNum 1200)]))).
    split; [reflexivity|]. left. reflexivity.
Defined.

(** ** Aggregation when both enrichment requests fail *)

(** C7, as the specification states it, fails: with the network down, a
    single key that carries an age bucket gives an aggregate with a photo
    count, a histogram and an age-range label, and [init] inserts a box. *)
Lemma degraded_aggregate_counterexample :
  fetchFailed (offline (GET (settingsUrl "u1"))) = true
  /\ fetchFailed (offline (GET (intermediateUrl "u1"))) = true
  /\ AnalyticsDisplay.aggregate isoYear offline "u1" (map VStr bucketedOrder)
     = inr [("photoCount", VNum 1);
            ("bucketCounts",
             VObj [("01-05", VNum 1); ("06-10", VNum 0); ("11-15", VNum 0);
                   ("16-20", VNum 0); ("21-30", VNum 0); ("31-40", VNum 0);
                   ("41-50", VNum 0); ("51-60", VNum 0); ("61-70", VNum 0);
                   ("71-80", VNum 0); ("81+", VNum 0)]);
            ("youngestBucket", VStr "01-05"); ("oldestBucket", VStr "01-05");
            ("ageRangeLabel", VStr "0-5 → 0-5"); ("yearsOfMemories", VNull)]
  /\ AnalyticsDisplay.init isoYear offline "u1" (map VStr bucketedOrder) true
     = Some {| AnalyticsDisplay.yearsLine := None;
               AnalyticsDisplay.ageRangeLine := Some "0-5 → 0-5";
               AnalyticsDisplay.chart :=
                 [ {| AnalyticsDisplay.barLabel := "0-5";
                      AnalyticsDisplay.barCount := 1;
                      AnalyticsDisplay.widthTimesMax := 100;
                      AnalyticsDisplay.barMax := 1 |} ];
               AnalyticsDisplay.technicalLine :=
                 Some (AnalyticsDisplay.PhotosOnly (VNum 1)) |}
  /\ AnalyticsDisplay.init isoYear offline "u1" (map VStr bucketedOrder) true
     <> None.
Proof. repeat split; try reflexivity. discriminate. Qed.

Lemma fetchObject_failed net url read :
  fetchFailed (net (GET url)) = true -> fetchObject net url read = [].
Proof.
  unfold fetchObject, fetchFailed. destruct (net (GET url)) as [e|r]; [reflexivity|].
  intros H. apply negb_true_iff in H. now rewrite H.
Qed.

Lemma countKeys_strings counts keys :
  AnalyticsDisplay.countKeys counts (map VStr keys) = inr (countsAfter counts keys).
Proof.
  revert counts. induction keys as [|k ks IH]; intros counts; [reflexivity|].
  cbn [map AnalyticsDisplay.countKeys countsAfter].
  unfold AnalyticsDisplay.countKey, bucketOfKey.
  destruct (AnalyticsDisplay.matchBucket (basename k)) as [name|];
    [|cbn [bind]; apply IH].
  destruct (AnalyticsDisplay.bucketNamed name AnalyticsDisplay.AGE_BUCKETS);
    cbn [bind]; apply IH.
Qed.

Lemma countsAfter_unmatched counts keys :
  (forall key, In key keys -> bucketOfKey key = None) ->
  countsAfter counts keys = counts.
Proof.
  revert counts. induction keys as [|k ks IH]; intros counts H; [reflexivity|].
  simpl. rewrite (H k (or_introl eq_refl)). apply IH.
  intros key Hin. apply H. now right.
Qed.

Lemma increment_names name counts :
  map fst (AnalyticsDisplay.increment name counts) = map fst counts.
Proof.
  induction counts as [|[k n] counts IH]; [reflexivity|].
  simpl. destruct (String.eqb k name); simpl; [reflexivity|now rewrite IH].
Qed.

Lemma countIn_increment_other name counts other :
  (AnalyticsDisplay.countIn counts other
   <= AnalyticsDisplay.countIn (AnalyticsDisplay.increment name counts) other)%Z.
Proof.
  unfold AnalyticsDisplay.countIn.
  induction counts as [|[k n] counts IH]; [reflexivity|].
  simpl. destruct (String.eqb k name) eqn:E; simpl.
  - destruct (String.eqb k other); simpl; lia.
  - destruct (String.eqb k other); simpl; [lia|exact IH].
Qed.

Lemma countIn_increment_same name counts :
  In name (map fst counts) ->
  (AnalyticsDisplay.countIn counts name + 1
   = AnalyticsDisplay.countIn (AnalyticsDisplay.increment name counts) name)%Z.
Proof.
  unfold AnalyticsDisplay.countIn.
  induction counts as [|[k n] counts IH]; [contradiction|].
  simpl. intros Hin. destruct (String.eqb k name) eqn:E; simpl; rewrite E; simpl.
  - reflexivity.
  - apply IH. destruct Hin as [H|H]; [|exact H].
    apply String.eqb_neq in E. contradiction.
Qed.

Lemma countsAfter_names counts keys :
  map fst (countsAfter counts keys) = map fst counts.
Proof.
  revert counts. induction keys as [|k ks IH]; intros counts; [reflexivity|].
  simpl. rewrite IH. destruct (bucketOfKey k); [apply increment_names|reflexivity].
Qed.

Lemma countsAfter_grows counts keys name :
  (AnalyticsDisplay.countIn counts name
   <= AnalyticsDisplay.countIn (countsAfter counts keys) name)%Z.
Proof.
  revert counts. induction keys as [|k ks IH]; intros counts; [reflexivity|].
  simpl. etransitivity; [|apply IH].
  destruct (bucketOfKey k); [apply countIn_increment_other|reflexivity].
Qed.

Lemma countsAfter_matched counts keys key name :
  In key keys -> bucketOfKey key = Some name -> In name (map fst counts) ->
  (AnalyticsDisplay.countIn counts name
   < AnalyticsDisplay.countIn (countsAfter counts keys) name)%Z.
Proof.
  revert counts. induction keys as [|k ks IH]; intros counts Hin Hb Hname;
    [contradiction|].
  simpl. destruct Hin as [-> | Hin].
  - rewrite Hb.
    pose proof (countIn_increment_same name counts Hname).
    pose proof (countsAfter_grows (AnalyticsDisplay.increment name counts) ks name).
    lia.
  - eapply Z.le_lt_trans; [|apply IH; try eassumption].
    + destruct (bucketOfKey k); [apply countIn_increment_other|reflexivity].
    + destruct (bucketOfKey k); [now rewrite increment_names|assumption].
Qed.

Lemma bucketNamed_in name buckets b :
  AnalyticsDisplay.bucketNamed name buckets = Some b -> In name (map fst buckets).
Proof.
  induction buckets as [|[k v] buckets IH]; [discriminate|].
  simpl. destruct (String.eqb k name) eqn:E; [|auto].
  apply String.eqb_eq in E. auto.
Qed.

Lemma bucketOfKey_in key name :
  bucketOfKey key = Some name -> In name AnalyticsDisplay.bucketOrder.
Proof.
  unfold bucketOfKey.
  destruct (AnalyticsDisplay.matchBucket (basename key)) as [m|]; [|discriminate].
  destruct (AnalyticsDisplay.bucketNamed m AnalyticsDisplay.AGE_BUCKETS) eqn:E;
    [|discriminate].
  intros [= <-]. now apply bucketNamed_in in E.
Qed.

(** The buckets with photos are empty exactly when no key carries a
    bucket. *)
Lemma bucketsWithPhotos_empty keys :
  filter (fun b => (0 <? AnalyticsDisplay.countIn (countsAfter zeroCounts keys) b)%Z)
         AnalyticsDisplay.bucketOrder = []
  <-> (forall key, In key keys -> bucketOfKey key = None).
Proof.
  split.
  - intros Hempty key Hin. destruct (bucketOfKey key) as [name|] eqn:Hb; [|reflexivity].
    exfalso. pose proof (bucketOfKey_in key name Hb) as Hname.
    assert (Hpos : (0 < AnalyticsDisplay.countIn (countsAfter zeroCounts keys) name)%Z).
    { assert (Hzero : AnalyticsDisplay.countIn zeroCounts name = 0%Z).
      { unfold AnalyticsDisplay.countIn.
        destruct (find _ zeroCounts) as [[k n]|] eqn:Ef; [|reflexivity].
        apply find_some in Ef as [Hin' _]. unfold zeroCounts in Hin'.
        apply in_map_iff in Hin' as (b & [= _ <-] & _). reflexivity. }
      assert (Hnames : In name (map fst zeroCounts)).
      { exact Hname. }
      pose proof (countsAfter_matched zeroCounts keys key name Hin Hb Hnames).
      lia. }
    assert (Hfil : In name
      (filter (fun b => (0 <? AnalyticsDisplay.countIn (countsAfter zeroCounts keys) b)%Z)
              AnalyticsDisplay.bucketOrder)).
    { apply filter_In. split; [assumption|now apply Z.ltb_lt]. }
    rewrite Hempty in Hfil. contradiction.
  - intros Hnone. rewrite (countsAfter_unmatched zeroCounts keys Hnone). reflexivity.
Qed.

Lemma arrow_label_truthy a b : truthy (VStr (a ++ " → " ++ b)) = true.
Proof. destruct a; reflexivity. Qed.

(** The aggregate built from local data only, in the two shapes
    [parseFilenames] returns. *)
Lemma aggregate_local_empty fullYear (n : value) :
  let filenameStats := [("ageRangeLabel", VNull); ("bucketCounts", VNull)] in
  let merged := spread (spread (spread [("photoCount", n)] filenameStats) []) [] in
  setProp "yearsOfMemories" (calculateYearsOfMemories fullYear merged) merged
  = [("photoCount", n); ("ageRangeLabel", VNull); ("bucketCounts", VNull);
     ("yearsOfMemories", VNull)].
Proof. reflexivity. Qed.

Lemma aggregate_local_full fullYear (n counts youngest oldest rangeLabel : value) :
  let filenameStats :=
    [("bucketCounts", counts); ("youngestBucket", youngest);
     ("oldestBucket", oldest); ("ageRangeLabel", rangeLabel)] in
  let merged := spread (spread (spread [("photoCount", n)] filenameStats) []) [] in
  setProp "yearsOfMemories" (calculateYearsOfMemories fullYear merged) merged
  = [("photoCount", n); ("bucketCounts", counts); ("youngestBucket", youngest);
     ("oldestBucket", oldest); ("ageRangeLabel", rangeLabel);
     ("yearsOfMemories", VNull)].
Proof. reflexivity. Qed.

(** C7, amended. When both enrichment requests fail, the aggregate holds
    what the page computes by itself and nothing else: the photo count, the
    fields [parseFilenames] derives from the keys, and a [null]
    years-of-memories; no field of either document is present.  The age-range
    label is [null], and [init] inserts nothing, exactly when no key carries
    a recognised age bucket. *)
Theorem degraded_aggregate (fullYear : value -> option Z) (net : Network)
  (u : string) (keys : list string) :
  fetchFailed (net (GET (settingsUrl u))) = true ->
  fetchFailed (net (GET (intermediateUrl u))) = true ->
  exists filenameStats stats,
    AnalyticsDisplay.parseFilenames (map VStr keys) = inr filenameStats
    /\ AnalyticsDisplay.aggregate fullYear net u (map VStr keys) = inr stats
    /\ stats = setProp "yearsOfMemories" VNull
                 (spread [("photoCount", VNum (Z.of_nat (List.length keys)))]
                         filenameStats)
    /\ statOf "photoCount" stats = VNum (Z.of_nat (List.length keys))
    /\ statOf "yearsOfMemories" stats = VNull
    /\ (forall name,
          In name ["birthdate"; "deathdate"; "deceasedName";
                   "totalFacesIndexed"; "totalPhotosProcessed"] ->
          statOf name stats = VUndef)
    /\ (statOf "ageRangeLabel" stats = VNull
        <-> forall key, In key keys -> bucketOfKey key = None)
    /\ (AnalyticsDisplay.init fullYear net u (map VStr keys) true = None
        <-> forall key, In key keys -> bucketOfKey key = None).
Proof.
  intros Hsettings Hstats.
  unfold AnalyticsDisplay.init, AnalyticsDisplay.aggregate.
  unfold fetchPresentationSettings, AnalyticsDisplay.fetchProcessingStats.
  rewrite (fetchObject_failed _ _ _ Hsettings), (fetchObject_failed _ _ _ Hstats).
  rewrite length_map.
  unfold AnalyticsDisplay.parseFilenames.
  change (map (fun b => (b, 0%Z)) AnalyticsDisplay.bucketOrder) with zeroCounts.
  rewrite countKeys_strings. cbn [bind].
  pose proof (bucketsWithPhotos_empty keys) as Hempty.
  destruct (filter _ AnalyticsDisplay.bucketOrder) as [|youngest others].
  - cbn [bind]. rewrite aggregate_local_empty.
    eexists. eexists. split; [reflexivity|]. split; [reflexivity|].
    assert (Hnone : forall key, In key keys -> bucketOfKey key = None)
      by now apply Hempty.
    split; [reflexivity|]. split; [reflexivity|]. split; [reflexivity|].
    split; [|split; split; auto].
    intros name Hin. simpl in Hin.
    repeat (destruct Hin as [<- | Hin]; [reflexivity|]). contradiction.
  - cbn [bind]. rewrite aggregate_local_full.
    eexists. eexists. split; [reflexivity|]. split; [reflexivity|].
    assert (Hsome : ~ (forall key, In key keys -> bucketOfKey key = None)).
    { intros H. apply Hempty in H. discriminate H. }
    split; [reflexivity|]. split; [reflexivity|]. split; [reflexivity|].
    split; [|split; split].
    + intros name Hin. simpl in Hin.
      repeat (destruct Hin as [<- | Hin]; [reflexivity|]). contradiction.
    + intros H. discriminate H.
    + intros H. contradiction.
    + unfold AnalyticsDisplay.render, AnalyticsDisplay.notEnoughData.
      change (statOf "ageRangeLabel" _)
        with (VStr (AnalyticsDisplay.labelOf youngest ++ " → "
                    ++ AnalyticsDisplay.labelOf (last (youngest :: others) youngest))).
      rewrite arrow_label_truthy. rewrite andb_false_r. discriminate.
    + intros H. contradiction.
Qed.

Lemma degraded_aggregate_witness :
  exists filenameStats stats,
    AnalyticsDisplay.parseFilenames unbucketedOrder = inr filenameStats
    /\ AnalyticsDisplay.aggregate isoYear offline "u1" unbucketedOrder = inr stats
    /\ statOf "photoCount" stats = VNum 2
    /\ statOf "yearsOfMemories" stats = VNull
    /\ AnalyticsDisplay.init isoYear offline "u1" unbucketedOrder true = None.
Proof.
  destruct (degraded_aggregate isoYear offline "u1"
              ["enhanced/u1/renamed/IMG_0001.jpg"; "enhanced/u1/renamed/IMG_0002.jpg"]
              eq_refl eq_refl)
    as (filenameStats & stats & H1 & H2 & _ & H4 & H5 & _ & _ & H8).
  exists filenameStats, stats.
  refine (conj H1 (conj H2 (conj H4 (conj H5 _)))).
  apply H8. intros key [<- | [<- | []]]; reflexivity.
Defined.

(** * Further properties *)

(** ** Decoding keys that carry a method marker *)

Lemma split_no_sep sep s : hasChar sep s = false -> Js.split sep s = [s].
Proof.
  induction s as [|c s IH]; [reflexivity|].
  simpl. intros H. apply orb_false_iff in H as [Hc Hs].
  rewrite Hc, (IH Hs). reflexivity.
Qed.

Lemma split_parts_no_sep sep s :
  Forall (fun p => hasChar sep p = false) (Js.split sep s).
Proof.
  induction s as [|c s IH]; [repeat constructor|].
  simpl. destruct (Ascii.eqb c sep) eqn:E.
  - constructor; [reflexivity|assumption].
  - destruct (Js.split sep s) as [|p ps]; [repeat constructor; simpl; now rewrite E|].
    inversion IH as [|? ? Hp Hps]; subst.
    constructor; [|assumption]. simpl. now rewrite E, Hp.
Qed.

Lemma string_length_app a b :
  String.length (a ++ b) = String.length a + String.length b.
Proof. induction a as [|c a IH]; simpl; [reflexivity|now rewrite IH]. Qed.

Lemma substring_last a c :
  substring (String.length a) 1 (a ++ String c "") = String c "".
Proof. induction a as [|d a IH]; [reflexivity|exact IH]. Qed.

Lemma isMethodMarker_wrapped m : isMethodMarker ("|" ++ m ++ "|") = true.
Proof.
  unfold isMethodMarker, Js.startsWith, Js.endsWith.
  change ("|" ++ m ++ "|")%string with (String "|" (m ++ "|"))%string.
  assert (Hlen : String.length (String "|" (m ++ "|")) = S (S (String.length m))).
  { simpl. rewrite string_length_app. simpl. lia. }
  rewrite Hlen. cbn [String.length Nat.sub Nat.leb].
  replace (prefix "|" (String "|" (m ++ "|"))) with true
    by (simpl; now destruct (m ++ "|")%string).
  cbn [andb substring].
  now rewrite (substring_last m "|").
Qed.

Lemma markerStart_app i before marker rest :
  existsb isMethodMarker before = false ->
  isMethodMarker marker = true ->
  markerStart i (before ++ marker :: rest) = i + List.length before + 1.
Proof.
  revert i. induction before as [|p ps IH]; intros i Hno Hm.
  - simpl. rewrite Hm. lia.
  - simpl in *. apply orb_false_iff in Hno as [Hp Hps]. rewrite Hp.
    rewrite (IH (i + 1) Hps Hm). lia.
Qed.

(** The tokens of a basename that carries a marker. *)
Lemma split_marked pre m rest :
  hasChar "_" m = false ->
  Js.split "_" (pre ++ "_|" ++ m ++ "|_" ++ rest)
  = Js.split "_" pre ++ ("|" ++ m ++ "|")%string :: Js.split "_" rest.
Proof.
  intros Hm.
  change (pre ++ "_|" ++ m ++ "|_" ++ rest)%string
    with (pre ++ String "_" (String "|" (m ++ String "|" (String "_" rest))))%string.
  rewrite split_app_sep. f_equal.
  replace (String "|" (m ++ String "|" (String "_" rest)))
    with (("|" ++ m ++ "|") ++ String "_" rest)%string.
  - rewrite split_app_sep, split_no_sep; [reflexivity|].
    simpl. clear -Hm. induction m as [|c m IH]; [reflexivity|].
    simpl in *. apply orb_false_iff in Hm as [Hc Hm]. now rewrite Hc, IH.
  - simpl. f_equal. clear. induction m as [|c m IH]; [reflexivity|].
    simpl. now rewrite IH.
Qed.

(** X1. A generated key whose basename is
    [<prefix>_|<method>|_<rest>], with no earlier token wrapped in pipes and
    no underscore in the method, decodes to what follows the marker: all of
    it when it does not begin with an "x" token; the original name when the
    "x" token of an EXIF override precedes it. *)
Theorem decode_after_marker (key pre m rest : string) :
  basename key = (pre ++ "_|" ++ m ++ "|_" ++ rest)%string ->
  existsb isMethodMarker (Js.split "_" pre) = false ->
  hasChar "_" m = false ->
  (forall orig : string,
     rest = ("x_" ++ orig)%string -> extractOriginalFilename key = orig)
  /\ (rest = "x" -> extractOriginalFilename key = "")
  /\ (hd_error (Js.split "_" rest) <> Some "x" ->
      extractOriginalFilename key = rest).
Proof.
  intros Hbase Hpre Hm. unfold extractOriginalFilename.
  rewrite Hbase, (split_marked pre m rest Hm).
  rewrite (markerStart_app 0 _ _ _ Hpre (isMethodMarker_wrapped m)).
  set (n := List.length (Js.split "_" pre)).
  assert (Hnth : nth_error (Js.split "_" pre ++ ("|" ++ m ++ "|")%string
                              :: Js.split "_" rest) (0 + n + 1)
                 = hd_error (Js.split "_" rest)).
  { replace (0 + n + 1) with (n + 1) by lia.
    rewrite nth_error_app2 by (subst n; lia).
    replace (n + 1 - List.length (Js.split "_" pre)) with 1 by (subst n; lia).
    simpl. now destruct (Js.split "_" rest). }
  assert (Hskip : forall k,
            Js.slice (0 + n + 1 + k)
              (Js.split "_" pre ++ ("|" ++ m ++ "|")%string :: Js.split "_" rest)
            = skipn k (Js.split "_" rest)).
  { intros k. unfold Js.slice.
    replace (0 + n + 1 + k) with (n + S k) by lia.
    rewrite skipn_app. rewrite skipn_all2 by (subst n; lia).
    replace (n + S k - List.length (Js.split "_" pre)) with (S k) by (subst n; lia).
    reflexivity. }
  rewrite Hnth. repeat split.
  - intros orig ->.
    assert (Hs : Js.split "_" ("x_" ++ orig) = "x"%string :: Js.split "_" orig).
    { change ("x_" ++ orig)%string with ("x" ++ String "_" orig)%string.
      now rewrite split_app_sep. }
    rewrite Hs in *. cbn [hd_error]. change ("x" =? "x")%string with true.
    cbv iota. rewrite (Hskip 1). simpl skipn. apply join_split.
  - intros ->. change (Js.split "_" "x") with ["x"%string] in *.
    cbn [hd_error]. change ("x" =? "x")%string with true.
    cbv iota. rewrite (Hskip 1). reflexivity.
  - intros Hx. pose proof (join_split "_" rest) as Hjs.
    specialize (Hskip 0). rewrite Nat.add_0_r in Hskip. cbn [skipn] in Hskip.
    destruct (hd_error (Js.split "_" rest)) as [p|]; [|now rewrite Hskip].
    destruct (String.eqb p "x") eqn:Ep; [|now rewrite Hskip].
    apply String.eqb_eq in Ep. subst p. now contradiction Hx.
Qed.

Lemma decode_after_marker_witness :
  extractOriginalFilename "enhanced/u1/renamed/21-30(014)_|FR|_x_beach_day.jpg"
    = "beach_day.jpg"
  /\ extractOriginalFilename "enhanced/u1/renamed/21-30(014)_|FR|_beach_day.jpg"
    = "beach_day.jpg".
Proof.
  split.
  - apply (proj1 (decode_after_marker
             "enhanced/u1/renamed/21-30(014)_|FR|_x_beach_day.jpg"
             "21-30(014)" "FR" "x_beach_day.jpg" eq_refl eq_refl eq_refl)).
    reflexivity.
  - apply (proj2 (proj2 (decode_after_marker
             "enhanced/u1/renamed/21-30(014)_|FR|_beach_day.jpg"
             "21-30(014)" "FR" "beach_day.jpg" eq_refl eq_refl eq_refl))).
    discriminate.
Defined.

(** ** The basename of a key *)

Lemma string_app_assoc a b c : ((a ++ b) ++ c = a ++ (b ++ c))%string.
Proof. induction a as [|x a IH]; simpl; [reflexivity|now rewrite IH]. Qed.

Lemma join_app_last sep dirs b :
  dirs <> [] ->
  Js.join sep (dirs ++ [b]) = (Js.join sep dirs ++ sep ++ b)%string.
Proof.
  induction dirs as [|d ds IH]; [congruence|]. intros _.
  destruct ds as [|d' ds]; [reflexivity|].
  change (Js.join sep ((d :: d' :: ds) ++ [b]))
    with (d ++ sep ++ Js.join sep ((d' :: ds) ++ [b]))%string.
  rewrite IH by discriminate.
  change (Js.join sep (d :: d' :: ds))
    with (d ++ sep ++ Js.join sep (d' :: ds))%string.
  now rewrite !string_app_assoc.
Qed.

Lemma split_last sep s :
  exists dirs b, Js.split sep s = dirs ++ [b] /\ Js.pop (Js.split sep s) = Some b.
Proof.
  destruct (exists_last (split_nonempty sep s)) as (dirs & b & E).
  exists dirs, b. split; [assumption|].
  rewrite E. unfold Js.pop. now rewrite rev_app_distr.
Qed.

(** X2. The basename of a key holds no '/', the key is either its own
    basename or a directory, a '/', and the basename; taking the basename
    twice changes nothing. *)
Theorem basename_last_segment (key : string) :
  hasChar "/" (basename key) = false
  /\ (key = basename key
      \/ exists dir : string, key = (dir ++ "/" ++ basename key)%string)
  /\ basename (basename key) = basename key.
Proof.
  destruct (split_last "/" key) as (dirs & b & Hsplit & Hpop).
  assert (Hb : basename key = b) by (unfold basename; now rewrite Hpop).
  assert (Hno : hasChar "/" b = false).
  { pose proof (split_parts_no_sep "/" key) as Hall. rewrite Hsplit in Hall.
    rewrite Forall_forall in Hall. apply Hall, in_or_app. right. now left. }
  rewrite Hb. split; [assumption|]. split.
  - pose proof (join_split "/" key) as Hjoin. rewrite Hsplit in Hjoin.
    destruct dirs as [|d ds].
    + left. now rewrite <- Hjoin.
    + right. exists (Js.join "/" (d :: ds)).
      rewrite <- Hjoin. apply join_app_last. discriminate.
  - unfold basename. now rewrite (split_no_sep "/" b Hno).
Qed.

(** ** Page load *)

(** X3. However the network answers and whatever the address holds, the
    page-load handler leaves the loading indicator hidden and one of two
    pages: the error state, with gallery and download hidden and the order
    in memory untouched; or the gallery with the download section, the
    error state as it was, and as many gallery items as keys in memory. *)
Theorem page_load_settles (localeCompare : string -> string -> Z)
  (net : Network) (param : option string) (st : State) :
  let final := onDOMContentLoaded localeCompare net param st in
  loadingState (page final) = false
  /\ uid final = param
  /\ ((errorState (page final) = true
       /\ galleryContainer (page final) = false
       /\ downloadSection (page final) = false
       /\ photoOrder final = photoOrder st)
      \/ (galleryContainer (page final) = true
          /\ downloadSection (page final) = true
          /\ errorState (page final) = errorState (page st)
          /\ List.length (photoGallery (page final))
             = List.length (photoOrder final))).
Proof.
  intros final. subst final. unfold onDOMContentLoaded.
  destruct param as [[|c u]|]; try (cbn; auto 10).
  unfold loadPhotos. cbn [withPage uid page photoOrder].
  destruct (snd (resolveEntries localeCompare net (Some (String c u))))
    as [e|entries].
  - cbn. auto 10.
  - cbn [photoOrder page uid showLoading loadingState galleryContainer
         downloadSection errorState photoGallery negb].
    split; [reflexivity|]. split; [reflexivity|]. right.
    repeat split.
    unfold renderGallery. rewrite length_map.
    rewrite <- (length_map s3Key entries).
    generalize (map s3Key entries) as keys. generalize 0 as i.
    intros i keys. revert i. induction keys as [|k ks IH]; intros i; [reflexivity|].
    simpl. now rewrite IH.
Qed.

(** ** The override document *)

(** X4. A custom-order document that answers with an ok status but gives no
    order to use - a body that does not parse, [null], or an [order] that is
    missing, [null], [false], 0 or the empty text - is treated as absent:
    the run requests the manifest and its entries are those of the manifest
    branch. *)
Theorem unusable_override_falls_back (localeCompare : string -> string -> Z)
  (net : Network) (u : option string) (r : Response) :
  net (GET (customOrderUrl u)) = Resolved r ->
  ok r = true ->
  unusableOverride r ->
  truthy (loadCustomOrder net u) = false
  /\ resolveEntries localeCompare net u
     = ([GET (customOrderUrl u); GET (manifestUrl u)],
        entriesOfManifest localeCompare net u).
Proof.
  intros Hnet Hok Hbad.
  assert (Hfalsy : truthy (loadCustomOrder net u) = false).
  { unfold loadCustomOrder. rewrite Hnet, Hok. unfold unusableOverride in Hbad.
    destruct (json r) as [e|data]; [reflexivity|].
    destruct data; cbn in *; try reflexivity; assumption. }
  split; [assumption|]. unfold resolveEntries. now rewrite Hfalsy.
Qed.

Lemma unusable_override_falls_back_witness :
  truthy (loadCustomOrder emptyOverrideNet (Some "u1")) = false
  /\ resolveEntries byteOrder emptyOverrideNet (Some "u1")
     = ([GET (customOrderUrl (Some "u1")); GET (manifestUrl (Some "u1"))],
        entriesOfManifest byteOrder emptyOverrideNet (Some "u1")).
Proof.
  apply (unusable_override_falls_back byteOrder emptyOverrideNet (Some "u1")
           {| status := 200; statusText := "OK";
              json := inr (VObj [("updated_at", VStr "2025-01-01T00:00:00Z")]) |}).
  - reflexivity.
  - reflexivity.
  - reflexivity.
Defined.

Lemma mapM_customEntry_inv xs entries :
  mapM customEntry xs = inr entries -> xs = map VStr (map s3Key entries).
Proof.
  revert entries. induction xs as [|x xs IH]; intros entries H.
  - injection H as <-. reflexivity.
  - simpl in H. destruct x; try discriminate H. cbn [customEntry bind] in H.
    destruct (mapM customEntry xs) as [e|ys]; [discriminate H|].
    injection H as <-. simpl. now rewrite <- (IH ys eq_refl).
Qed.

Lemma mapM_customEntry_error xs e :
  mapM customEntry xs = inl e -> exnName e = "TypeError".
Proof.
  induction xs as [|x xs IH]; [discriminate|]. simpl.
  destruct x; cbn [customEntry bind]; try (intros [= <-]; reflexivity).
  destruct (mapM customEntry xs) as [e'|ys]; [|discriminate].
  intros [= <-]. now apply IH.
Qed.

(** X5. An override that is truthy but is not an array of texts - a text, a
    number, an object, or an array with an element that is not a text - is
    not treated as absent: [loadPhotos] throws a TypeError, leaves the order
    in memory as it was, and never requests the manifest. *)
Theorem malformed_override_is_fatal (localeCompare : string -> string -> Z)
  (net : Network) (st : State) :
  truthy (loadCustomOrder net (uid st)) = true ->
  (forall keys, loadCustomOrder net (uid st) <> VArr (map VStr keys)) ->
  exists e,
    loadPhotos localeCompare net st
      = (withPage st (showLoading true (page st)), Some e)
    /\ exnName e = "TypeError"
    /\ fst (resolveEntries localeCompare net (uid st))
       = [GET (customOrderUrl (uid st))].
Proof.
  intros Htruthy Hshape.
  assert (Hres : exists e,
            resolveEntries localeCompare net (uid st)
              = ([GET (customOrderUrl (uid st))], inl e)
            /\ exnName e = "TypeError").
  { unfold resolveEntries. rewrite Htruthy. unfold entriesOfCustomOrder.
    destruct (loadCustomOrder net (uid st)) as [| |b|n|t|xs|props];
      try (eexists; split; reflexivity).
    destruct (mapM customEntry xs) as [e|entries] eqn:E.
    - exists e. split; [reflexivity|]. eapply mapM_customEntry_error; eassumption.
    - apply mapM_customEntry_inv in E. exfalso.
      apply (Hshape (map s3Key entries)). now rewrite E. }
  destruct Hres as (e & Hres & Hname). exists e.
  rewrite (loadPhotos_thrown localeCompare net st e) by now rewrite Hres.
  rewrite Hres. auto.
Qed.

Lemma malformed_override_is_fatal_witness :
  exists e,
    loadPhotos byteOrder textOverrideNet orderU1
      = (withPage orderU1 (showLoading true (page orderU1)), Some e)
    /\ exnName e = "TypeError"
    /\ fst (resolveEntries byteOrder textOverrideNet (uid orderU1))
       = [GET (customOrderUrl (uid orderU1))].
Proof.
  apply (malformed_override_is_fatal byteOrder textOverrideNet orderU1).
  - reflexivity.
  - intros keys. discriminate.
Defined.

(** ** The manifest branch *)

Lemma keepEntry_illFormed entry :
  wellFormedEntry entry = false -> exists e, keepEntry entry = inl e.
Proof.
  unfold wellFormedEntry, keepEntry.
  destruct entry as [| |b|n|t|xs|props]; try discriminate;
    try solve [intros _; cbn; eauto].
  cbn [getProp bind].
  destruct (lookup "final_key" props) as [v|]; [|discriminate].
  destruct v as [| |b|n|t|xs|ps]; cbn; try (intros H; discriminate H);
    intros H; try (apply negb_false_iff in H; rewrite H); eauto.
Qed.

Lemma filterM_keepEntry_throws entries :
  forallb wellFormedEntry entries = false ->
  exists e, filterM keepEntry entries = inl e.
Proof.
  induction entries as [|x xs IH]; [discriminate|].
  simpl forallb. intros H. simpl filterM.
  destruct (wellFormedEntry x) eqn:Hx.
  - rewrite (proj1 (keepEntry_wellFormed x Hx)). cbn [bind].
    destruct (IH H) as [e He]. rewrite He. cbn [bind]. eauto.
  - destruct (keepEntry_illFormed x Hx) as [e He]. rewrite He. cbn [bind]. eauto.
Qed.

Lemma snd_loadPhotos cmp net st :
  snd (loadPhotos cmp net st)
  = match snd (resolveEntries cmp net (uid st)) with
    | inl e => Some e
    | inr _ => None
    end.
Proof.
  unfold loadPhotos. cbn [withPage uid].
  now destruct (snd (resolveEntries cmp net (uid st))).
Qed.

(** X6. With no override in use and a manifest that answers ok with a
    readable body, [loadPhotos] finishes without throwing exactly when the
    body is an array whose entries are all well formed: one [null] entry, or
    one [final_key] that is a number, an array or an object, fails the whole
    load. *)
Theorem manifest_loads_iff_well_formed (localeCompare : string -> string -> Z)
  (net : Network) (st : State) (r : Response) (manifest : value) :
  truthy (loadCustomOrder net (uid st)) = false ->
  net (GET (manifestUrl (uid st))) = Resolved r ->
  ok r = true ->
  json r = inr manifest ->
  (snd (loadPhotos localeCompare net st) = None
   <-> exists entries,
         manifest = VArr entries /\ forallb wellFormedEntry entries = true).
Proof.
  intros Hcustom Hnet Hok Hjson. rewrite snd_loadPhotos.
  unfold resolveEntries. rewrite Hcustom. cbn [snd]. split.
  - unfold entriesOfManifest. rewrite Hnet, Hok, Hjson. cbn [bind].
    destruct manifest as [| |b|n|t|entries|props]; try discriminate.
    intros H. exists entries. split; [reflexivity|].
    destruct (forallb wellFormedEntry entries) eqn:Hwf; [reflexivity|].
    destruct (filterM_keepEntry_throws entries Hwf) as [e He].
    rewrite He in H. discriminate H.
  - intros (entries & -> & Hwf).
    now rewrite (entriesOfManifest_wellFormed localeCompare net (uid st) r entries).
Qed.

Lemma manifest_loads_iff_well_formed_witness :
  snd (loadPhotos byteOrder unreviewedNet orderU1) = None
  /\ snd (loadPhotos byteOrder holedNet orderU1) <> None.
Proof.
  split.
  - apply (proj2 (manifest_loads_iff_well_formed byteOrder unreviewedNet orderU1
                    (okManifest manifestEntries) (VArr manifestEntries)
                    eq_refl eq_refl eq_refl eq_refl)).
    exists manifestEntries. split; reflexivity.
  - intros H.
    apply (proj1 (manifest_loads_iff_well_formed byteOrder holedNet orderU1
                    (okManifest (VNull :: manifestEntries))
                    (VArr (VNull :: manifestEntries))
                    eq_refl eq_refl eq_refl eq_refl)) in H.
    destruct H as (entries & [= <-] & Hwf). discriminate Hwf.
Defined.

Lemma keptKeys_in key entries :
  In key (keptKeys entries) ->
  exists entry, In entry entries /\ keptKey entry = Some key.
Proof.
  induction entries as [|x xs IH]; [contradiction|].
  simpl. destruct (keptKey x) as [k|] eqn:Ek.
  - intros [<- | Hin]; [exists x; auto|].
    destruct (IH Hin) as (entry & H1 & H2). exists entry. auto.
  - intros Hin. destruct (IH Hin) as (entry & H1 & H2). exists entry. auto.
Qed.

Lemma keptKey_final_key entry key :
  keptKey entry = Some key ->
  getProp entry "final_key" = inr (VStr key)
  /\ key <> ""
  /\ Js.endsWith key ".ready" = false.
Proof.
  unfold keptKey. destruct entry as [| |b|n|t|xs|props]; try discriminate.
  cbn [getProp]. destruct (lookup "final_key" props) as [v|]; [|discriminate].
  destruct v as [| |b|n|t|xs|ps]; try discriminate.
  destruct (String.eqb t "") eqn:Et; [discriminate|].
  destruct (Js.endsWith t ".ready") eqn:Er; [discriminate|].
  intros [= <-]. apply String.eqb_neq in Et. auto.
Qed.

(** The order in memory after a load through the manifest branch. *)
Lemma manifest_photoOrder cmp net st r entries :
  truthy (loadCustomOrder net (uid st)) = false ->
  net (GET (manifestUrl (uid st))) = Resolved r ->
  ok r = true ->
  json r = inr (VArr entries) ->
  forallb wellFormedEntry entries = true ->
  photoOrder (fst (loadPhotos cmp net st))
  = map VStr (sort (byFilename cmp) (keptKeys entries)).
Proof.
  intros Hcustom Hnet Hok Hjson Hwf.
  destruct (loadPhotos_resolved cmp net st (sort (byFilename cmp) (keptKeys entries)))
    as (st' & H1 & H2 & _).
  { unfold resolveEntries. rewrite Hcustom. cbn [snd].
    now apply entriesOfManifest_wellFormed with (r := r). }
  now rewrite H1.
Qed.

(** X7. Every key the manifest branch puts in [photoOrder] is the
    [final_key] of some manifest entry, is not empty and does not end in
    ".ready": a sentinel entry is never shown and no key is invented. *)
Theorem manifest_keys_are_final_keys (localeCompare : string -> string -> Z)
  (net : Network) (st : State) (r : Response) (entries : list value) :
  truthy (loadCustomOrder net (uid st)) = false ->
  net (GET (manifestUrl (uid st))) = Resolved r ->
  ok r = true ->
  json r = inr (VArr entries) ->
  snd (loadPhotos localeCompare net st) = None ->
  forall v, In v (photoOrder (fst (loadPhotos localeCompare net st))) ->
  exists key entry,
    v = VStr key
    /\ In entry entries
    /\ getProp entry "final_key" = inr (VStr key)
    /\ key <> ""
    /\ Js.endsWith key ".ready" = false.
Proof.
  intros Hcustom Hnet Hok Hjson Hdone v Hin.
  assert (Hwf : forallb wellFormedEntry entries = true).
  { destruct (forallb wellFormedEntry entries) eqn:Hwf; [reflexivity|].
    rewrite snd_loadPhotos in Hdone. unfold resolveEntries in Hdone.
    rewrite Hcustom in Hdone. cbn [snd] in Hdone.
    unfold entriesOfManifest in Hdone. rewrite Hnet, Hok, Hjson in Hdone.
    cbn [bind] in Hdone.
    destruct (filterM_keepEntry_throws entries Hwf) as [e He].
    rewrite He in Hdone. discriminate Hdone. }
  rewrite (manifest_photoOrder _ _ _ _ _ Hcustom Hnet Hok Hjson Hwf) in Hin.
  apply in_map_iff in Hin as (key & <- & Hkey).
  apply (Permutation_in _ (sort_perm (byFilename localeCompare) (keptKeys entries)))
    in Hkey.
  destruct (keptKeys_in key entries Hkey) as (entry & Hentry & Hkept).
  exists key, entry. split; [reflexivity|]. split; [assumption|].
  now apply keptKey_final_key.
Qed.

Lemma manifest_keys_are_final_keys_witness :
  exists key entry,
    VStr "enhanced/u1/renamed/06-10(001)_|EX|_b.jpg" = VStr key
    /\ In entry manifestEntries
    /\ getProp entry "final_key" = inr (VStr key)
    /\ key <> ""
    /\ Js.endsWith key ".ready" = false.
Proof.
  apply (manifest_keys_are_final_keys byteOrder unreviewedNet orderU1
           (okManifest manifestEntries) manifestEntries
           eq_refl eq_refl eq_refl eq_refl eq_refl
           (VStr "enhanced/u1/renamed/06-10(001)_|EX|_b.jpg")).
  right. left. reflexivity.
Defined.

Lemma sort_of_sorted {A} (cmp : A -> A -> Z) l :
  Sorted (notAfter cmp) l -> sort cmp l = l.
Proof.
  induction 1 as [|x l Hs IH Hhd]; [reflexivity|].
  simpl. rewrite IH. destruct Hhd as [|y l' Hxy]; [reflexivity|].
  simpl. unfold notAfter in Hxy. apply Z.leb_le in Hxy. now rewrite Hxy.
Qed.

(** X8. When the kept keys of the manifest already stand in an order in
    which no filename sorts after the next, the manifest branch shows them
    in manifest order: the sort moves nothing. *)
Theorem sorted_manifest_is_kept (localeCompare : string -> string -> Z)
  (net : Network) (st : State) (r : Response) (entries : list value) :
  truthy (loadCustomOrder net (uid st)) = false ->
  net (GET (manifestUrl (uid st))) = Resolved r ->
  ok r = true ->
  json r = inr (VArr entries) ->
  forallb wellFormedEntry entries = true ->
  Sorted (notAfter (byFilename localeCompare)) (keptKeys entries) ->
  photoOrder (fst (loadPhotos localeCompare net st))
  = map VStr (keptKeys entries).
Proof.
  intros Hcustom Hnet Hok Hjson Hwf Hsorted.
  rewrite (manifest_photoOrder _ _ _ _ _ Hcustom Hnet Hok Hjson Hwf).
  now rewrite sort_of_sorted.
Qed.

Lemma sorted_manifest_is_kept_witness :
  photoOrder (fst (loadPhotos byteOrder orderedNet orderU1))
  = map VStr (keptKeys orderedEntries).
Proof.
  apply (sorted_manifest_is_kept byteOrder orderedNet orderU1
           (okManifest orderedEntries) orderedEntries);
    try reflexivity.
  repeat constructor; unfold notAfter; cbv; discriminate.
Defined.

(** ** The gallery after a load *)

Lemma numberFrom_nth start keys i item :
  nth_error (numberFrom start keys) i = Some item ->
  itemIndex item = start + i
  /\ itemNumber item = padStart3 (start + i + 1)
  /\ nth_error keys i = Some (itemKey item).
Proof.
  revert start i. induction keys as [|k ks IH]; intros start i H.
  - destruct i; discriminate H.
  - destruct i as [|i]; simpl in H.
    + injection H as <-. cbn. rewrite !Nat.add_0_r. auto.
    + apply IH in H as (H1 & H2 & H3).
      rewrite H1, H2. cbn [nth_error].
      replace (start + 1 + i) with (start + S i) by lia. auto.
Qed.

(** X9. After a load that did not throw, the photo count shown is the
    number of keys in memory, and the gallery item at each position carries
    that position as its index, the position plus one padded to three
    digits as its badge, and the key at the same position of [photoOrder]. *)
Theorem loaded_gallery_matches_order (localeCompare : string -> string -> Z)
  (net : Network) (st : State) :
  snd (loadPhotos localeCompare net st) = None ->
  let st' := fst (loadPhotos localeCompare net st) in
  photoCount (page st') = Js.ofNat (List.length (photoOrder st'))
  /\ List.length (photoGallery (page st')) = List.length (photoOrder st')
  /\ (forall i item,
        nth_error (photoGallery (page st')) i = Some item ->
        itemIndex item = i
        /\ itemNumber item = padStart3 (i + 1)
        /\ nth_error (photoOrder st') i = Some (VStr (itemKey item))).
Proof.
  rewrite snd_loadPhotos. unfold loadPhotos. cbn [withPage uid].
  destruct (snd (resolveEntries localeCompare net (uid st))) as [e|entries];
    [discriminate|].
  intros _.
  cbn [fst photoOrder page showLoading photoCount photoGallery].
  unfold renderGallery. rewrite !length_map.
  split; [reflexivity|]. split.
  - rewrite <- (length_map itemKey), itemKey_numberFrom. apply length_map.
  - intros i item H. apply numberFrom_nth in H as (H1 & H2 & H3).
    split; [exact H1|]. split; [exact H2|].
    rewrite nth_error_map in H3. rewrite nth_error_map.
    destruct (nth_error entries i) as [entry|]; [|discriminate H3].
    injection H3 as <-. reflexivity.
Qed.

Lemma loaded_gallery_matches_order_witness :
  let st' := fst (loadPhotos byteOrder reviewedNet orderU1) in
  photoCount (page st') = Js.ofNat (List.length (photoOrder st'))
  /\ List.length (photoGallery (page st')) = List.length (photoOrder st')
  /\ (forall i item,
        nth_error (photoGallery (page st')) i = Some item ->
        itemIndex item = i
        /\ itemNumber item = padStart3 (i + 1)
        /\ nth_error (photoOrder st') i = Some (VStr (itemKey item))).
Proof.
  apply (loaded_gallery_matches_order byteOrder reviewedNet orderU1).
  reflexivity.
Defined.

(** ** Dragging *)

Lemma nth_error_split {A} (l : list A) i x :
  nth_error l i = Some x ->
  l = firstn i l ++ x :: skipn (S i) l /\ List.length (firstn i l) = i.
Proof.
  revert i. induction l as [|y l IH]; intros i H; [destruct i; discriminate|].
  destruct i as [|i]; simpl in *.
  - injection H as <-. auto.
  - destruct (IH i H) as [H1 H2]. rewrite <- H1, H2. auto.
Qed.

Lemma cut_at_length {A} (a b : list A) :
  firstn (List.length a) (a ++ b) = a /\ skipn (List.length a) (a ++ b) = b.
Proof.
  split.
  - rewrite firstn_app, Nat.sub_diag, firstn_all. cbn [firstn]. apply app_nil_r.
  - rewrite skipn_app, Nat.sub_diag, skipn_all. reflexivity.
Qed.

(** What [onEnd] leaves in memory when it moves a real item. *)
Lemma onEnd_order oldIndex newIndex st x :
  oldIndex <> newIndex ->
  nth_error (photoOrder st) oldIndex = Some x ->
  photoOrder (onEnd oldIndex newIndex st)
  = firstn newIndex (without oldIndex (photoOrder st))
    ++ x :: skipn newIndex (without oldIndex (photoOrder st)).
Proof.
  intros Hne Hx. unfold onEnd, without, splice.
  apply Nat.eqb_neq in Hne. rewrite Hne. cbn [photoOrder fst snd app].
  destruct (nth_error_split _ _ _ Hx) as [Hsplit Hlen].
  assert (Hmoved : firstn 1 (skipn oldIndex (photoOrder st)) = [x]).
  { rewrite Hsplit at 1. rewrite skipn_app, Hlen, Nat.sub_diag.
    rewrite skipn_all2 by lia. reflexivity. }
  rewrite Hmoved. cbn [hd]. now rewrite Nat.add_0_r.
Qed.

Lemma without_length {A} (l : list A) i x :
  nth_error l i = Some x -> S (List.length (without i l)) = List.length l.
Proof.
  intros H.
  assert (Hi : i < List.length l) by (apply nth_error_Some; congruence).
  unfold without, splice. cbn [snd app].
  rewrite length_app, length_firstn, length_skipn. lia.
Qed.

Lemma without_inserted {A} (l : list A) n x :
  n <= List.length l ->
  without n (firstn n l ++ x :: skipn n l) = l
  /\ nth_error (firstn n l ++ x :: skipn n l) n = Some x.
Proof.
  intros Hn. assert (Hlen : List.length (firstn n l) = n)
    by (rewrite length_firstn; lia).
  split.
  - unfold without, splice. cbn [snd app].
    rewrite firstn_app, Hlen, Nat.sub_diag. cbn [firstn]. rewrite app_nil_r.
    rewrite firstn_all2 by lia.
    rewrite skipn_app, Hlen. rewrite skipn_all2 by lia.
    replace (n + 1 - n) with 1 by lia. cbn [skipn app].
    apply firstn_skipn.
  - rewrite nth_error_app2 by lia. now rewrite Hlen, Nat.sub_diag.
Qed.

(** X10. Dragging the item at one valid position to another valid position
    puts that item at the new position and leaves every other item in its
    sequence: taking the moved item out of the new order and out of the old
    order gives the same list, and the new order is a rearrangement of the
    old one. *)
Theorem drag_moves_one_item (oldIndex newIndex : nat) (st : State) (x : value) :
  nth_error (photoOrder st) oldIndex = Some x ->
  newIndex < List.length (photoOrder st) ->
  let after := photoOrder (onEnd oldIndex newIndex st) in
  nth_error after newIndex = Some x
  /\ without newIndex after = without oldIndex (photoOrder st)
  /\ Permutation after (photoOrder st)
  /\ List.length after = List.length (photoOrder st).
Proof.
  intros Hx Hn after. subst after.
  destruct (Nat.eq_dec oldIndex newIndex) as [<- | Hne].
  - unfold onEnd. rewrite Nat.eqb_refl. auto.
  - rewrite (onEnd_order _ _ _ _ Hne Hx).
    pose proof (without_length _ _ _ Hx) as Hlen.
    set (rest := without oldIndex (photoOrder st)) in *.
    assert (Hle : newIndex <= List.length rest) by lia.
    destruct (without_inserted rest newIndex x Hle) as [Hwithout Hnth].
    assert (Hperm : Permutation (firstn newIndex rest ++ x :: skipn newIndex rest)
                                (photoOrder st)).
    { rewrite <- Permutation_middle, firstn_skipn.
      destruct (nth_error_split _ _ _ Hx) as [Hsplit _].
      assert (Hrest : rest = firstn oldIndex (photoOrder st)
                             ++ skipn (S oldIndex) (photoOrder st)).
      { subst rest. unfold without, splice. cbn [snd app].
        now replace (oldIndex + 1) with (S oldIndex) by lia. }
      rewrite Hrest, Permutation_middle. now rewrite <- Hsplit. }
    repeat split; try assumption.
    now apply Permutation_length.
Qed.

Lemma drag_moves_one_item_witness :
  let after := photoOrder (onEnd 2 0 threePhotos) in
  nth_error after 0 = Some (VStr "k/c.jpg")
  /\ without 0 after = without 2 (photoOrder threePhotos)
  /\ Permutation after (photoOrder threePhotos)
  /\ List.length after = List.length (photoOrder threePhotos).
Proof.
  apply (drag_moves_one_item 2 0 threePhotos (VStr "k/c.jpg")).
  - reflexivity.
  - cbv. lia.
Defined.

(** X11. Dragging an item from one valid position to another and then back
    restores the order in memory. *)
Theorem drag_back_restores (oldIndex newIndex : nat) (st : State) :
  oldIndex < List.length (photoOrder st) ->
  newIndex < List.length (photoOrder st) ->
  photoOrder (onEnd newIndex oldIndex (onEnd oldIndex newIndex st))
  = photoOrder st.
Proof.
  intros Ho Hn.
  destruct (Nat.eq_dec oldIndex newIndex) as [<- | Hne].
  - unfold onEnd. now rewrite Nat.eqb_refl.
  - destruct (nth_error (photoOrder st) oldIndex) as [x|] eqn:Hx;
      [|apply nth_error_None in Hx; lia].
    pose proof (without_length _ _ _ Hx) as Hlen.
    assert (Hle : newIndex <= List.length (without oldIndex (photoOrder st))) by lia.
    destruct (without_inserted _ newIndex x Hle) as [Hwithout Hnth].
    rewrite <- (onEnd_order _ _ _ _ Hne Hx) in Hwithout, Hnth.
    rewrite (onEnd_order newIndex oldIndex _ x (not_eq_sym Hne) Hnth).
    rewrite Hwithout.
    destruct (nth_error_split _ _ _ Hx) as [Hsplit Hfirst].
    unfold without, splice. cbn [snd app].
    replace (oldIndex + 1) with (S oldIndex) by lia.
    destruct (cut_at_length (firstn oldIndex (photoOrder st))
                            (skipn (S oldIndex) (photoOrder st))) as [H1 H2].
    rewrite Hfirst in H1, H2. rewrite H1, H2. now symmetry.
Qed.

Lemma drag_back_restores_witness :
  photoOrder (onEnd 0 2 (onEnd 2 0 threePhotos)) = photoOrder threePhotos.
Proof.
  apply (drag_back_restores 2 0 threePhotos); cbv; lia.
Defined.

Lemma drag_order_outside oldIndex newIndex st :
  List.length (photoOrder st) <= oldIndex ->
  oldIndex <> newIndex ->
  photoOrder (onEnd oldIndex newIndex st)
  = firstn newIndex (photoOrder st) ++ VUndef :: skipn newIndex (photoOrder st).
Proof.
  intros Hout Hne. unfold onEnd, splice.
  apply Nat.eqb_neq in Hne. rewrite Hne. cbn [photoOrder fst snd app].
  rewrite (skipn_all2 (photoOrder st)) by lia.
  rewrite (skipn_all2 (photoOrder st)) by lia.
  rewrite (firstn_all2 (photoOrder st)) by lia.
  cbn [firstn hd]. rewrite app_nil_r. now rewrite Nat.add_0_r.
Qed.

(** X12. A drag reported from a position at or beyond the end of the order
    in memory moves nothing and inserts [undefined] at the new position: the
    order grows by one and no longer holds texts only. *)
Theorem drag_from_outside_grows_order (oldIndex newIndex : nat) (st : State) :
  List.length (photoOrder st) <= oldIndex ->
  oldIndex <> newIndex ->
  let after := photoOrder (onEnd oldIndex newIndex st) in
  after = firstn newIndex (photoOrder st) ++ VUndef :: skipn newIndex (photoOrder st)
  /\ List.length after = S (List.length (photoOrder st))
  /\ In VUndef after.
Proof.
  intros Hout Hne after. subst after.
  rewrite (drag_order_outside _ _ _ Hout Hne).
  split; [reflexivity|]. split.
  - rewrite length_app. cbn [List.length].
    rewrite <- (firstn_skipn newIndex (photoOrder st)) at 3.
    rewrite length_app. lia.
  - apply in_or_app. right. now left.
Qed.

Lemma drag_from_outside_grows_order_witness :
  let after := photoOrder (onEnd 5 1 threePhotos) in
  after = firstn 1 (photoOrder threePhotos)
          ++ VUndef :: skipn 1 (photoOrder threePhotos)
  /\ List.length after = S (List.length (photoOrder threePhotos))
  /\ In VUndef after.
Proof.
  apply (drag_from_outside_grows_order 5 1 threePhotos).
  - cbv. lia.
  - discriminate.
Defined.

(** ** Deleting *)

Lemma In_VStr_dec key order : In (VStr key) order \/ ~ In (VStr key) order.
Proof.
  induction order as [|v order IH]; [right; intros []|].
  destruct IH as [IH|IH]; [left; now right|].
  destruct v; try (right; intros [H|H]; [discriminate H|contradiction]).
  destruct (String.eqb s key) eqn:E.
  - apply String.eqb_eq in E. subst. left. now left.
  - apply String.eqb_neq in E. right. intros [[= H]|H]; contradiction.
Qed.

Lemma occurrences_app key a b :
  occurrences key (a ++ b) = occurrences key a + occurrences key b.
Proof.
  induction a as [|v a IH]; [reflexivity|].
  simpl. rewrite IH. destruct v; try reflexivity.
  destruct (String.eqb s key); reflexivity.
Qed.

Lemma occurrences_none key order :
  occurrences key order = 0 -> ~ In (VStr key) order.
Proof.
  induction order as [|v order IH]; [intros _ []|].
  simpl. intros H [Heq | Hin].
  - subst v. rewrite String.eqb_refl in H. discriminate H.
  - apply IH; [|exact Hin]. destruct v; try exact H.
    destruct (String.eqb s key); [discriminate H|exact H].
Qed.

Lemma occurrences_some key order :
  0 < occurrences key order -> In (VStr key) order.
Proof.
  induction order as [|v order IH]; [simpl; lia|].
  simpl. destruct v; try (intros H; right; now apply IH).
  destruct (String.eqb s key) eqn:E.
  - intros _. apply String.eqb_eq in E. subst. now left.
  - intros H. right. now apply IH.
Qed.

(** X13. Once the delete request has been answered - whatever the status
    and whatever the body, a refusal included - a key that stood exactly
    once in the order is gone from it, every other element is still there,
    other keys that repeat included, and the photo count shown is the new
    length. *)
Theorem delete_ignores_the_answer (net : Network) (key : string)
  (clicked : nat) (st : State) (r : Response) :
  net (deleteRequest (uid st) key) = Resolved r ->
  occurrences key (photoOrder st) = 1 ->
  let st' := deletePhoto true net key clicked st in
  ~ In (VStr key) (photoOrder st')
  /\ (forall v, v <> VStr key -> (In v (photoOrder st') <-> In v (photoOrder st)))
  /\ S (List.length (photoOrder st')) = List.length (photoOrder st)
  /\ photoCount (page st') = Js.ofNat (List.length (photoOrder st')).
Proof.
  intros Hnet Honce st'. subst st'. unfold deletePhoto, deletePath.
  rewrite Hnet. cbn [photoOrder page removeFromPage photoCount].
  assert (Hwas : In (VStr key) (photoOrder st))
    by (apply occurrences_some; lia).
  destruct (first_occurrence key _ Hwas) as (before & rest & Heq & Hb).
  rewrite Heq in *. rewrite (removeFromOrder_first key before rest Hb).
  rewrite occurrences_app in Honce. cbn [occurrences] in Honce.
  rewrite String.eqb_refl in Honce.
  assert (Hrest : ~ In (VStr key) rest) by (apply occurrences_none; lia).
  split; [|split; [|split; [|reflexivity]]].
  - intros Hin. apply in_app_or in Hin. tauto.
  - intros v Hv. rewrite !in_app_iff. simpl. intuition congruence.
  - rewrite !length_app. simpl. lia.
Qed.

Lemma delete_ignores_the_answer_witness :
  let st' := deletePhoto true refusingNet "k/b.jpg" 1 repeatedOrder in
  ~ In (VStr "k/b.jpg") (photoOrder st')
  /\ (forall v, v <> VStr "k/b.jpg" ->
        (In v (photoOrder st') <-> In v (photoOrder repeatedOrder)))
  /\ S (List.length (photoOrder st')) = List.length (photoOrder repeatedOrder)
  /\ photoCount (page st') = Js.ofNat (List.length (photoOrder st')).
Proof.
  apply (delete_ignores_the_answer refusingNet "k/b.jpg" 1 repeatedOrder
           {| status := 500; statusText := "Internal Server Error";
              json := inr (VObj [("success", VBool false);
                                 ("error", VStr "AccessDenied")]) |}).
  - reflexivity.
  - reflexivity.
Defined.

Lemma VStr_in_map key keys : In (VStr key) (map VStr keys) <-> In key keys.
Proof.
  rewrite in_map_iff. split.
  - intros (k & [= ->] & H). exact H.
  - intros H. exists key. auto.
Qed.

Lemma firstn_NoDup_not_in {A} (l : list A) i x :
  NoDup l -> nth_error l i = Some x -> ~ In x (firstn i l).
Proof.
  intros Hnd Hx Hin. destruct (nth_error_split _ _ _ Hx) as [Hsplit _].
  rewrite Hsplit in Hnd. apply NoDup_remove_2 in Hnd.
  apply Hnd, in_or_app. now left.
Qed.

(** X14. When the gallery shows the keys in memory, the keys are distinct,
    and the delete button pressed belongs to the item of the key, a delete
    that goes through leaves gallery and memory in step: both hold the old
    keys without the deleted one, in the old sequence, renumbered from 001. *)
Theorem delete_keeps_gallery_in_step (net : Network) (key : string)
  (clicked : nat) (st : State) (keys : list string) :
  photoOrder st = map VStr keys ->
  map itemKey (photoGallery (page st)) = keys ->
  NoDup keys ->
  nth_error keys clicked = Some key ->
  deletePath true net key st = Responded
  \/ deletePath true net key st = CorsSuspected ->
  let st' := deletePhoto true net key clicked st in
  photoOrder st' = map VStr (without clicked keys)
  /\ map itemKey (photoGallery (page st')) = without clicked keys
  /\ photoGallery (page st') = numberFrom 0 (without clicked keys)
  /\ S (List.length (without clicked keys)) = List.length keys.
Proof.
  intros Horder Hgallery Hnodup Hclicked Hpath st'. subst st'.
  assert (Hdel : deletePhoto true net key clicked st
                 = {| photoOrder := removeFromOrder key (photoOrder st);
                      uid := uid st;
                      page := removeFromPage clicked
                                (removeFromOrder key (photoOrder st)) (page st) |}).
  { unfold deletePhoto. now destruct Hpath as [-> | ->]. }
  rewrite Hdel. cbn [photoOrder page removeFromPage photoGallery].
  destruct (nth_error_split _ _ _ Hclicked) as [Hsplit Hlen].
  assert (Hwithout : without clicked keys
                     = firstn clicked keys ++ skipn (S clicked) keys).
  { unfold without, splice. cbn [snd app].
    now replace (clicked + 1) with (S clicked) by lia. }
  assert (Hitems : map itemKey (without clicked (photoGallery (page st)))
                   = without clicked keys).
  { unfold without, splice. cbn [snd app].
    now rewrite map_app, <- firstn_map, <- skipn_map, Hgallery. }
  split; [|split; [|split]].
  - rewrite Horder, Hwithout, map_app. rewrite Hsplit at 1.
    rewrite map_app. cbn [map]. apply removeFromOrder_first.
    rewrite VStr_in_map. now apply firstn_NoDup_not_in.
  - unfold updateDisplayNumbers. rewrite itemKey_numberFrom. exact Hitems.
  - unfold updateDisplayNumbers. fold (without clicked (photoGallery (page st))).
    now rewrite Hitems.
  - now apply without_length with (x := key).
Qed.

Lemma delete_keeps_gallery_in_step_witness :
  let st' := deletePhoto true blockedNet "k/b.jpg" 1 threePhotos in
  photoOrder st' = map VStr (without 1 threeKeys)
  /\ map itemKey (photoGallery (page st')) = without 1 threeKeys
  /\ photoGallery (page st') = numberFrom 0 (without 1 threeKeys)
  /\ S (List.length (without 1 threeKeys)) = List.length threeKeys.
Proof.
  apply (delete_keeps_gallery_in_step blockedNet "k/b.jpg" 1 threePhotos threeKeys).
  - reflexivity.
  - reflexivity.
  - repeat constructor; simpl; intuition discriminate.
  - reflexivity.
  - right. reflexivity.
Defined.

(** ** Downloading *)

(** X15. [downloadAll] shows the success overlay and navigates to the
    archive only when the service answered ok with a readable body whose
    [success] and [download_url] are both truthy; the link followed and the
    count and e-mail flag shown are the ones of that body. *)
Theorem download_starts_only_on_success (net : Network) (st : State)
  (url count sent : value) :
  snd (downloadAll net st) = DownloadStarted url count sent
  <-> exists r result success,
        net (downloadRequest st) = Resolved r
        /\ ok r = true
        /\ json r = inr result
        /\ getProp result "success" = inr success
        /\ truthy success = true
        /\ getProp result "download_url" = inr url
        /\ truthy url = true
        /\ getProp result "photo_count" = inr count
        /\ getProp result "email_sent" = inr sent.
Proof.
  unfold downloadAll. cbn [snd]. split.
  - destruct (net (downloadRequest st)) as [e|r]; [discriminate|].
    destruct (ok r) eqn:Hok.
    + destruct (json r) as [e|result] eqn:Hjson; [discriminate|]. cbn [bind].
      destruct (getProp result "success") as [e|success] eqn:Hs; [discriminate|].
      cbn [bind].
      destruct (getProp result "download_url") as [e|u] eqn:Hu; [discriminate|].
      cbn [bind].
      destruct (truthy success) eqn:Hts; cbn [andb].
      * destruct (truthy u) eqn:Htu.
        -- destruct (getProp result "photo_count") as [e|c] eqn:Hc; [discriminate|].
           cbn [bind].
           destruct (getProp result "email_sent") as [e|m] eqn:Hm; [discriminate|].
           cbn [bind]. intros [= <- <- <-].
           exists r, result, success. auto 10.
        -- destruct (getProp result "error"); discriminate.
      * destruct (getProp result "error"); discriminate.
    + destruct (match json r with inl _ => VObj [] | inr d => d end);
        cbn; try discriminate.
  - intros (r & result & success & -> & -> & -> & Hs & Hts & Hu & Htu & Hc & Hm).
    cbn [bind]. rewrite Hs. cbn [bind]. rewrite Hu. cbn [bind].
    rewrite Hts, Htu. cbn [andb]. rewrite Hc. cbn [bind]. rewrite Hm. reflexivity.
Qed.

Lemma download_starts_only_on_success_witness :
  snd (downloadAll zippingNet threePhotos)
  = DownloadStarted (VStr "https://example.org/u1.zip") (VNum 3) (VBool true).
Proof.
  apply (proj2 (download_starts_only_on_success zippingNet threePhotos
                  (VStr "https://example.org/u1.zip") (VNum 3) (VBool true))).
  exists {| status := 200; statusText := "OK";
            json := inr (VObj [("success", VBool true);
                               ("download_url", VStr "https://example.org/u1.zip");
                               ("photo_count", VNum 3);
                               ("email_sent", VBool true)]) |},
    (VObj [("success", VBool true);
           ("download_url", VStr "https://example.org/u1.zip");
           ("photo_count", VNum 3);
           ("email_sent", VBool true)]),
    (VBool true).
  repeat split.
Defined.

(** ** Age buckets *)

Lemma matchBucket_prefix f found :
  AnalyticsDisplay.matchBucket f = Some found ->
  exists rest : string, f = (found ++ rest)%string.
Proof.
  unfold AnalyticsDisplay.matchBucket.
  destruct f as [|a [|b [|c rest]]]; try discriminate.
  destruct (AnalyticsDisplay.isDigit a && AnalyticsDisplay.isDigit b);
    [|discriminate].
  destruct (Ascii.eqb c "-").
  - destruct rest as [|d [|e rest]]; try discriminate.
    destruct (AnalyticsDisplay.isDigit d && AnalyticsDisplay.isDigit e);
      [|discriminate].
    intros [= <-]. now exists rest.
  - destruct (Ascii.eqb c "+"); [|discriminate].
    intros [= <-]. now exists rest.
Qed.

(** X16. The pattern and the bucket table agree: a key counts for a bucket
    exactly when the bucket is one of the eleven of the table and the key's
    basename begins with the bucket's name, whatever directory the key is in
    and whatever follows the name. *)
Theorem bucket_prefix_is_recognised (name key : string) :
  bucketOfKey key = Some name
  <-> In name AnalyticsDisplay.bucketOrder
      /\ exists rest : string, basename key = (name ++ rest)%string.
Proof.
  unfold bucketOfKey. split.
  - destruct (AnalyticsDisplay.matchBucket (basename key)) as [found|] eqn:Em;
      [|discriminate].
    destruct (AnalyticsDisplay.bucketNamed found AnalyticsDisplay.AGE_BUCKETS)
      as [b|] eqn:Eb; [|discriminate].
    intros [= <-]. split.
    + now apply bucketNamed_in in Eb.
    + now apply matchBucket_prefix.
  - intros [Hin (rest & ->)]. simpl in Hin.
    repeat (destruct Hin as [<- | Hin]; [reflexivity|]). contradiction.
Qed.

Lemma bucket_prefix_is_recognised_witness :
  bucketOfKey "enhanced/u1/renamed/81+(002)_|EX|_reunion.jpg" = Some "81+".
Proof.
  apply (proj2 (bucket_prefix_is_recognised "81+"
                  "enhanced/u1/renamed/81+(002)_|EX|_reunion.jpg")).
  split.
  - simpl. tauto.
  - exists "(002)_|EX|_reunion.jpg". reflexivity.
Defined.

Lemma countIn_increment_neq name counts other :
  other <> name ->
  AnalyticsDisplay.countIn (AnalyticsDisplay.increment name counts) other
  = AnalyticsDisplay.countIn counts other.
Proof.
  intros Hne. unfold AnalyticsDisplay.countIn.
  induction counts as [|[k n] counts IH]; [reflexivity|].
  simpl. destruct (String.eqb k name) eqn:E; simpl.
  - apply String.eqb_eq in E. subst k.
    destruct (String.eqb name other) eqn:E'; [|reflexivity].
    apply String.eqb_eq in E'. congruence.
  - destruct (String.eqb k other); [reflexivity|exact IH].
Qed.

Lemma countsAfter_exact counts keys name :
  map fst counts = AnalyticsDisplay.bucketOrder ->
  AnalyticsDisplay.countIn (countsAfter counts keys) name
  = (AnalyticsDisplay.countIn counts name
     + Z.of_nat (List.length (filter (inBucket name) keys)))%Z.
Proof.
  revert counts. induction keys as [|k ks IH]; intros counts Hnames.
  - simpl. lia.
  - simpl. unfold inBucket at 1.
    destruct (bucketOfKey k) as [found|] eqn:Eb.
    + rewrite IH by now rewrite increment_names.
      destruct (String.eqb found name) eqn:E.
      * apply String.eqb_eq in E. subst found.
        rewrite <- (countIn_increment_same name counts).
        -- simpl List.length. lia.
        -- rewrite Hnames. now apply bucketOfKey_in with (key := k).
      * apply String.eqb_neq in E.
        rewrite (countIn_increment_neq found counts name) by congruence.
        reflexivity.
    + now apply IH.
Qed.

Lemma countOf_counts counts name :
  AnalyticsDisplay.countOf
    (VObj (map (fun kn => (fst kn, VNum (snd kn))) counts)) name
  = AnalyticsDisplay.countIn counts name.
Proof.
  unfold AnalyticsDisplay.countOf, AnalyticsDisplay.countIn.
  induction counts as [|[k n] counts IH]; [reflexivity|].
  simpl. destruct (String.eqb k name); [reflexivity|exact IH].
Qed.

Lemma countIn_zeroCounts name : AnalyticsDisplay.countIn zeroCounts name = 0%Z.
Proof.
  unfold AnalyticsDisplay.countIn.
  destruct (find _ zeroCounts) as [[k n]|] eqn:Ef; [|reflexivity].
  apply find_some in Ef as [Hin _]. unfold zeroCounts in Hin.
  apply in_map_iff in Hin as (b & [= _ <-] & _). reflexivity.
Qed.

(** X17. The histogram [parseFilenames] builds is exact: for each bucket of
    the table, the count read back from [bucketCounts] is the number of keys
    whose basename begins with that bucket's name (and [bucketCounts] is
    [null], read as zero everywhere, when there is no such key at all). *)
Theorem histogram_counts_keys (keys : list string) :
  exists filenameStats,
    AnalyticsDisplay.parseFilenames (map VStr keys) = inr filenameStats
    /\ forall name,
         In name AnalyticsDisplay.bucketOrder ->
         AnalyticsDisplay.countOf (statOf "bucketCounts" filenameStats) name
         = Z.of_nat (List.length (filter (inBucket name) keys)).
Proof.
  unfold AnalyticsDisplay.parseFilenames.
  change (map (fun b => (b, 0%Z)) AnalyticsDisplay.bucketOrder) with zeroCounts.
  rewrite countKeys_strings. cbn [bind].
  assert (Hexact : forall name,
            AnalyticsDisplay.countIn (countsAfter zeroCounts keys) name
            = Z.of_nat (List.length (filter (inBucket name) keys))).
  { intros name. rewrite countsAfter_exact by reflexivity.
    now rewrite countIn_zeroCounts. }
  destruct (filter _ AnalyticsDisplay.bucketOrder) as [|youngest others] eqn:Ef.
  - eexists. split; [reflexivity|]. intros name Hin.
    change (statOf "bucketCounts" _) with VNull. cbn [AnalyticsDisplay.countOf].
    rewrite <- Hexact.
    destruct (0 <? AnalyticsDisplay.countIn (countsAfter zeroCounts keys) name)%Z
      eqn:Epos.
    + assert (Habs : In name []).
      { rewrite <- Ef. apply filter_In. auto. }
      contradiction.
    + apply Z.ltb_ge in Epos. rewrite Hexact in *. lia.
  - eexists. split; [reflexivity|]. intros name Hin.
    change (statOf "bucketCounts" _)
      with (VObj (map (fun kn => (fst kn, VNum (snd kn)))
                      (countsAfter zeroCounts keys))).
    now rewrite countOf_counts.
Qed.

Lemma histogram_counts_keys_witness :
  exists filenameStats,
    AnalyticsDisplay.parseFilenames (map VStr bucketedOrder) = inr filenameStats
    /\ AnalyticsDisplay.countOf (statOf "bucketCounts" filenameStats) "01-05"
       = Z.of_nat (List.length (filter (inBucket "01-05") bucketedOrder)).
Proof.
  destruct (histogram_counts_keys bucketedOrder) as (filenameStats & H1 & H2).
  exists filenameStats. split; [exact H1|]. apply H2. simpl. tauto.
Defined.

Lemma fold_max_bounds (xs : list Z) :
  (forall x, In x xs -> (x <= fold_right Z.max 0 xs)%Z)
  /\ (xs <> [] -> (forall x, In x xs -> 0 < x)%Z ->
      In (fold_right Z.max 0%Z xs) xs).
Proof.
  induction xs as [|y ys [IHle IHin]]; [split; [intros x []|congruence]|].
  split.
  - intros x [<- | Hin]; simpl; [lia|]. specialize (IHle x Hin). lia.
  - intros _ Hpos. simpl.
    destruct ys as [|z zs].
    + left. simpl. specialize (Hpos y (or_introl eq_refl)). lia.
    + destruct (Z.max_spec y (fold_right Z.max 0%Z (z :: zs))) as [[_ ->]|[_ ->]].
      * right. apply IHin; [discriminate|]. intros x Hx. apply Hpos. now right.
      * now left.
Qed.

(** X18. Every bar of the chart stands for a bucket with at least one
    photo, is no taller than the tallest, and has a width between 8 and 100
    percent; when there is any bar, one of them has the full width. *)
Theorem bars_are_bounded (bucketCounts : value) :
  (forall bar,
     In bar (AnalyticsDisplay.renderBarChart bucketCounts) ->
     (0 < AnalyticsDisplay.barCount bar <= AnalyticsDisplay.barMax bar)%Z
     /\ (8 * AnalyticsDisplay.barMax bar <= AnalyticsDisplay.widthTimesMax bar
         <= 100 * AnalyticsDisplay.barMax bar)%Z)
  /\ (AnalyticsDisplay.renderBarChart bucketCounts <> [] ->
      exists bar,
        In bar (AnalyticsDisplay.renderBarChart bucketCounts)
        /\ AnalyticsDisplay.widthTimesMax bar
           = (100 * AnalyticsDisplay.barMax bar)%Z).
Proof.
  unfold AnalyticsDisplay.renderBarChart.
  set (active := filter _ AnalyticsDisplay.bucketOrder).
  set (counts := map (AnalyticsDisplay.countOf bucketCounts) active).
  assert (Hpos : forall x, In x counts -> (0 < x)%Z).
  { intros x Hx. apply in_map_iff in Hx as (b & <- & Hb).
    apply filter_In in Hb as [_ Hb]. now apply Z.ltb_lt. }
  destruct (fold_max_bounds counts) as [Hle Hin].
  split.
  - intros bar Hbar. apply in_map_iff in Hbar as (b & <- & Hb).
    cbn [AnalyticsDisplay.barCount AnalyticsDisplay.barMax
         AnalyticsDisplay.widthTimesMax].
    assert (Hc : In (AnalyticsDisplay.countOf bucketCounts b) counts)
      by now apply in_map.
    specialize (Hpos _ Hc). specialize (Hle _ Hc). lia.
  - intros Hne.
    assert (Hcounts : counts <> []).
    { intros E. apply Hne. apply map_eq_nil in E. now rewrite E. }
    specialize (Hin Hcounts Hpos).
    apply in_map_iff in Hin as (b & Hb & Hactive).
    eexists. split; [apply in_map; exact Hactive|].
    cbn [AnalyticsDisplay.widthTimesMax AnalyticsDisplay.barMax].
    rewrite Hb.
    assert (0 < fold_right Z.max 0 counts)%Z.
    { rewrite <- Hb. apply Hpos. now apply in_map. }
    lia.
Qed.

Lemma bars_are_bounded_witness :
  exists bar,
    In bar (AnalyticsDisplay.renderBarChart
              (VObj [("01-05", VNum 3); ("81+", VNum 40)]))
    /\ AnalyticsDisplay.widthTimesMax bar = (100 * AnalyticsDisplay.barMax bar)%Z.
Proof.
  apply (proj2 (bars_are_bounded (VObj [("01-05", VNum 3); ("81+", VNum 40)]))).
  discriminate.
Defined.

(** ** Merging the sources *)

Lemma lookup_setProp name v props k :
  lookup k (setProp name v props)
  = if String.eqb name k then Some v else lookup k props.
Proof.
  induction props as [|[k' w] props IH]; simpl.
  - reflexivity.
  - destruct (String.eqb k' name) eqn:E; simpl.
    + apply String.eqb_eq in E. subst k'.
      now destruct (String.eqb name k).
    + destruct (String.eqb k' k) eqn:E'.
      * apply String.eqb_eq in E'. subst k'. now rewrite String.eqb_sym, E.
      * exact IH.
Qed.

Lemma lookup_not_in k (props : list (string * value)) :
  ~ In k (map fst props) -> lookup k props = None.
Proof.
  induction props as [|[k' w] props IH]; [reflexivity|].
  simpl. intros H. destruct (String.eqb k' k) eqn:E.
  - apply String.eqb_eq in E. subst. exfalso. apply H. now left.
  - apply IH. intros Hin. apply H. now right.
Qed.

(** X19. Merging by spread lets the later source win: a property of the
    merged object has the value the later object gives it when that object
    has the property, and the value of the earlier object otherwise. *)
Theorem spread_later_wins (a b : list (string * value)) (k : string) :
  NoDup (map fst b) ->
  lookup k (spread a b)
  = match lookup k b with
    | Some v => Some v
    | None => lookup k a
    end.
Proof.
  unfold spread. revert a. induction b as [|[k' w] b IH]; intros a Hnd.
  - reflexivity.
  - simpl in Hnd. inversion Hnd as [|? ? Hnotin Hnd']; subst.
    cbn [fold_left fst snd]. rewrite (IH _ Hnd'). cbn [lookup].
    rewrite lookup_setProp.
    destruct (String.eqb k' k) eqn:E.
    + apply String.eqb_eq in E. subst k'.
      now rewrite (lookup_not_in k b Hnotin).
    + reflexivity.
Qed.

Lemma spread_later_wins_witness :
  lookup "photoCount"
    (spread [("photoCount", VNum 3); ("birthdate", VNull)]
            [("birthdate", VStr "1930-04-12")])
  = match lookup "photoCount" [("birthdate", VStr "1930-04-12")] with
    | Some v => Some v
    | None => lookup "photoCount" [("photoCount", VNum 3); ("birthdate", VNull)]
    end.
Proof.
  apply (spread_later_wins [("photoCount", VNum 3); ("birthdate", VNull)]
           [("birthdate", VStr "1930-04-12")] "photoCount").
  repeat constructor. intros [].
Defined.

Lemma orElse_null v : orElse v VNull = VNull \/ truthy (orElse v VNull) = true.
Proof. unfold orElse. destruct (truthy v) eqn:E; auto. Qed.

Lemma orElse_truthy v w : truthy v = true -> orElse v w = v.
Proof. unfold orElse. now intros ->. Qed.

(** The two shapes a fetcher's contribution can take. *)
Lemma fetchPresentationSettings_shape net u :
  fetchPresentationSettings net u = []
  \/ exists birthdate deathdate name,
       fetchPresentationSettings net u
       = [("birthdate", birthdate); ("deathdate", deathdate);
          ("deceasedName", name)]
       /\ (birthdate = VNull \/ truthy birthdate = true)
       /\ (deathdate = VNull \/ truthy deathdate = true)
       /\ (name = VNull \/ truthy name = true).
Proof.
  unfold fetchPresentationSettings, fetchObject.
  destruct (net (GET (metadataUrl u "presentation_settings.json"))) as [e|r];
    [now left|].
  destruct (ok r); [|now left].
  destruct (json r) as [e|data]; [now left|]. cbn [bind].
  destruct (getProp data "birthdate") as [e|b]; [now left|]. cbn [bind].
  destruct (getProp data "deathdate") as [e|d]; [now left|]. cbn [bind].
  destruct (getProp data "deceased_first_name") as [e|f]; [now left|]. cbn [bind].
  destruct (getProp data "deceased_full_name") as [e|g]; [now left|]. cbn [bind].
  right. do 3 eexists. split; [reflexivity|].
  repeat split; apply orElse_null.
Qed.

Lemma fetchProcessingStats_shape net u :
  AnalyticsDisplay.fetchProcessingStats net u = []
  \/ exists faces photos,
       AnalyticsDisplay.fetchProcessingStats net u
       = [("totalFacesIndexed", faces); ("totalPhotosProcessed", photos)]
       /\ (faces = VNull \/ truthy faces = true)
       /\ (photos = VNull \/ truthy photos = true).
Proof.
  unfold AnalyticsDisplay.fetchProcessingStats, fetchObject.
  destruct (net (GET (intermediateUrl u))) as [e|r]; [now left|].
  destruct (ok r); [|now left].
  destruct (json r) as [e|data]; [now left|]. cbn [bind].
  destruct (getProp data "enhanced_processing_stats") as [e|found]; [now left|].
  cbn [bind].
  destruct (getProp (orElse found (VObj [])) "total_faces_indexed") as [e|f];
    [now left|]. cbn [bind].
  destruct (getProp (orElse found (VObj [])) "total_photos") as [e|p];
    [now left|]. cbn [bind].
  right. do 2 eexists. split; [reflexivity|].
  split; apply orElse_null.
Qed.

Lemma parseFilenames_shape keys :
  AnalyticsDisplay.parseFilenames (map VStr keys)
    = inr [("ageRangeLabel", VNull); ("bucketCounts", VNull)]
  \/ exists counts youngest oldest rangeLabel,
       AnalyticsDisplay.parseFilenames (map VStr keys)
       = inr [("bucketCounts", counts); ("youngestBucket", youngest);
              ("oldestBucket", oldest); ("ageRangeLabel", rangeLabel)].
Proof.
  unfold AnalyticsDisplay.parseFilenames.
  rewrite countKeys_strings. cbn [bind].
  destruct (filter _ AnalyticsDisplay.bucketOrder); [now left|].
  right. do 4 eexists. reflexivity.
Qed.

Lemma years_null_or_positive fullYear stats :
  calculateYearsOfMemories fullYear stats = VNull
  \/ exists n, (0 < n)%Z /\ calculateYearsOfMemories fullYear stats = VNum n.
Proof.
  unfold calculateYearsOfMemories.
  destruct (truthy (statOf "birthdate" stats) && truthy (statOf "deathdate" stats));
    [|now left].
  destruct (fullYear (statOf "deathdate" stats)) as [d|]; [|now left].
  destruct (fullYear (statOf "birthdate" stats)) as [b|]; [|now left].
  destruct (0 <? d - b)%Z eqn:E; [|now left].
  right. exists (d - b)%Z. apply Z.ltb_lt in E. auto.
Qed.

(** X20. Whatever the two documents hold, they cannot displace what the
    page computes by itself: in the aggregate the photo count is the number
    of keys and the age-range label and histogram are those of
    [parseFilenames]; and years-of-memories is either [null] or a positive
    number. *)
Theorem documents_cannot_override_local_fields (fullYear : value -> option Z)
  (net : Network) (u : string) (keys : list string) :
  exists filenameStats stats,
    AnalyticsDisplay.parseFilenames (map VStr keys) = inr filenameStats
    /\ AnalyticsDisplay.aggregate fullYear net u (map VStr keys) = inr stats
    /\ statOf "photoCount" stats = VNum (Z.of_nat (List.length keys))
    /\ statOf "ageRangeLabel" stats = statOf "ageRangeLabel" filenameStats
    /\ statOf "bucketCounts" stats = statOf "bucketCounts" filenameStats
    /\ (statOf "yearsOfMemories" stats = VNull
        \/ exists n, (0 < n)%Z /\ statOf "yearsOfMemories" stats = VNum n).
Proof.
  unfold AnalyticsDisplay.aggregate. rewrite length_map.
  destruct (fetchPresentationSettings_shape net u)
    as [-> | (b & d & nm & -> & _)];
  destruct (fetchProcessingStats_shape net u)
    as [-> | (f & p & -> & _)];
  destruct (parseFilenames_shape keys)
    as [-> | (c & y & o & l & ->)];
  cbn [bind];
  (eexists; eexists; split; [reflexivity|]; split; [reflexivity|]);
  match goal with
  | |- context [setProp "yearsOfMemories" (calculateYearsOfMemories fullYear ?s) _] =>
      destruct (years_null_or_positive fullYear s) as [Hy | (n & Hn & Hy)];
      rewrite Hy; cbn; eauto 10
  end.
Qed.

(** A document read without a TypeError is read without one at every
    name. *)
Lemma getProp_defined data name v other :
  getProp data name = inr v -> exists w, getProp data other = inr w.
Proof. destruct data; try discriminate; cbn; eauto. Qed.

Lemma countKeys_returns counts photoOrder result :
  AnalyticsDisplay.countKeys counts photoOrder = inr result ->
  exists keys, photoOrder = map VStr keys.
Proof.
  revert counts. induction photoOrder as [|v vs IH]; intros counts H.
  - now exists [].
  - cbn [AnalyticsDisplay.countKeys] in H.
    destruct v as [| |b|n|k|xs|props]; try discriminate H.
    destruct (AnalyticsDisplay.countKey counts (VStr k)) as [e|counts'];
      [discriminate H|].
    cbn [bind] in H. destruct (IH _ H) as [keys ->]. now exists (k :: keys).
Qed.

(** An order that is not an array of texts makes [parseFilenames] throw,
    and [init] then inserts nothing. *)
Lemma init_needs_texts fullYear net u photoOrder photoCountEl :
  (forall keys, photoOrder <> map VStr keys) ->
  AnalyticsDisplay.init fullYear net u photoOrder photoCountEl = None.
Proof.
  intros Hshape.
  unfold AnalyticsDisplay.init, AnalyticsDisplay.aggregate,
    AnalyticsDisplay.parseFilenames.
  destruct (AnalyticsDisplay.countKeys _ photoOrder) as [e|counts] eqn:E;
    [reflexivity|].
  destruct (countKeys_returns _ _ _ E) as [keys ->].
  now contradiction (Hshape keys).
Qed.

(** X21. When the presentation settings are served with two dates the host
    can read and the death year is later than the birth year, then for
    every order of texts, and whether or not the processing statistics
    arrive, [init] builds a box whose headline shows that many years and
    inserts it exactly when the page has the [.photo-count] element; for an
    order that holds anything but texts [init] inserts nothing. *)
Theorem served_dates_give_the_headline (fullYear : value -> option Z)
  (net : Network) (u : string) (r : Response)
  (data birthdate deathdate : value) (birth death : Z) :
  net (GET (settingsUrl u)) = Resolved r ->
  ok r = true ->
  json r = inr data ->
  getProp data "birthdate" = inr birthdate ->
  getProp data "deathdate" = inr deathdate ->
  truthy birthdate = true ->
  truthy deathdate = true ->
  fullYear birthdate = Some birth ->
  fullYear deathdate = Some death ->
  (0 < death - birth)%Z ->
  (forall (keys : list string) (photoCountEl : bool),
     exists box,
       AnalyticsDisplay.yearsLine box
         = Some (ofZ (death - birth) ++ " years")%string
       /\ AnalyticsDisplay.init fullYear net u (map VStr keys) photoCountEl
          = if photoCountEl then Some box else None)
  /\ (forall (photoOrder : list value) (photoCountEl : bool),
        (forall keys, photoOrder <> map VStr keys) ->
        AnalyticsDisplay.init fullYear net u photoOrder photoCountEl = None).
Proof.
  intros Hnet Hok Hjson Hb Hd Htb Htd Hyb Hyd Hpos.
  split; [|intros photoOrder photoCountEl; apply init_needs_texts].
  intros keys photoCountEl.
  assert (Hsettings : exists name,
            fetchPresentationSettings net u
            = [("birthdate", birthdate); ("deathdate", deathdate);
               ("deceasedName", name)]).
  { unfold fetchPresentationSettings, fetchObject. fold (settingsUrl u).
    rewrite Hnet, Hok, Hjson. cbn [bind]. rewrite Hb, Hd. cbn [bind].
    destruct (getProp_defined _ _ _ "deceased_first_name" Hb) as [f ->].
    destruct (getProp_defined _ _ _ "deceased_full_name" Hb) as [g ->].
    cbn [bind].
    rewrite (orElse_truthy birthdate VNull Htb), (orElse_truthy deathdate VNull Htd).
    eauto. }
  destruct Hsettings as [nm Hsettings].
  apply Z.ltb_lt in Hpos.
  unfold AnalyticsDisplay.init, AnalyticsDisplay.aggregate. rewrite Hsettings.
  destruct (fetchProcessingStats_shape net u) as [-> | (f & p & -> & _)];
  destruct (parseFilenames_shape keys) as [-> | (c & y & o & l & ->)];
  cbn [bind];
  unfold calculateYearsOfMemories;
  match goal with
  | |- context [statOf "birthdate" ?s] =>
      change (statOf "birthdate" s) with birthdate;
      change (statOf "deathdate" s) with deathdate
  end;
  rewrite Htb, Htd, Hyb, Hyd; cbn [andb]; rewrite Hpos;
  unfold AnalyticsDisplay.render, AnalyticsDisplay.notEnoughData;
  match goal with
  | |- context [statOf "yearsOfMemories" ?s] =>
      change (statOf "yearsOfMemories" s) with (VNum (death - birth))
  end;
  assert (Ht : truthy (VNum (death - birth)) = true)
    by (cbn; apply negb_true_iff, Z.eqb_neq; apply Z.ltb_lt in Hpos; lia);
  rewrite Ht; cbn [negb andb];
  (eexists; split; [|reflexivity]);
  unfold AnalyticsDisplay.buildBox; cbn [AnalyticsDisplay.yearsLine];
  match goal with
  | |- context [statOf "yearsOfMemories" ?s] =>
      change (statOf "yearsOfMemories" s) with (VNum (death - birth))
  end;
  rewrite Ht; reflexivity.
Qed.

Lemma served_dates_give_the_headline_witness :
  (exists box,
     AnalyticsDisplay.yearsLine box = Some (ofZ (2020 - 1930) ++ " years")%string
     /\ AnalyticsDisplay.init isoYear settingsOnlyNet "u1" (map VStr bucketedOrder) true
        = Some box)
  /\ AnalyticsDisplay.init isoYear settingsOnlyNet "u1" (map VStr bucketedOrder) false
     = None
  /\ AnalyticsDisplay.init isoYear settingsOnlyNet "u1"
       [VStr "r/01-05(003)_|EX|_x_photo.jpg"; VUndef] true
     = None.
Proof.
  pose proof (served_dates_give_the_headline isoYear settingsOnlyNet "u1"
      {| status := 200; statusText := "OK"; json := inr settingsDocument |}
      settingsDocument (VStr "1930-04-12") (VStr "2020-11-03") 1930%Z 2020%Z
      eq_refl eq_refl eq_refl eq_refl eq_refl eq_refl eq_refl eq_refl eq_refl
      eq_refl) as [Htexts Hother].
  split; [|split].
  - destruct (Htexts bucketedOrder true) as (box & Hline & Hinit).
    exists box. auto.
  - destruct (Htexts bucketedOrder false) as (box & _ & Hinit). exact Hinit.
  - apply Hother. intros [|k [|k' ks]]; discriminate.
Defined.

(** ** The stats-grid revision *)

(** X22. In the stats-grid revision, when both enrichment requests fail the
    aggregate is the photo count with a [null] years-of-memories and
    nothing else, and [init] inserts nothing, whatever the keys are. *)
Theorem grid_degrades_to_nothing (fullYear : value -> option Z) (net : Network)
  (u : string) (photoOrder : list value) (photoCountEl : bool) :
  fetchFailed (net (GET (settingsUrl u))) = true ->
  fetchFailed (net (GET (intermediateUrl u))) = true ->
  AnalyticsDisplayGrid.aggregate fullYear net u photoOrder
  = [("photoCount", VNum (Z.of_nat (List.length photoOrder)));
     ("yearsOfMemories", VNull)]
  /\ AnalyticsDisplayGrid.init fullYear net u photoOrder photoCountEl = None.
Proof.
  intros Hsettings Hstats.
  unfold AnalyticsDisplayGrid.init, AnalyticsDisplayGrid.aggregate.
  unfold fetchPresentationSettings, AnalyticsDisplayGrid.fetchProcessingStats.
  rewrite (fetchObject_failed _ _ _ Hsettings), (fetchObject_failed _ _ _ Hstats).
  split; reflexivity.
Qed.

Lemma grid_degrades_to_nothing_witness :
  AnalyticsDisplayGrid.aggregate isoYear offline "u1" (map VStr bucketedOrder)
  = [("photoCount", VNum (Z.of_nat (List.length (map VStr bucketedOrder))));
     ("yearsOfMemories", VNull)]
  /\ AnalyticsDisplayGrid.init isoYear offline "u1" (map VStr bucketedOrder) true
     = None.
Proof.
  apply (grid_degrades_to_nothing isoYear offline "u1" (map VStr bucketedOrder) true);
    reflexivity.
Defined.

(** X23. The estimate of manual sorting time for a positive number of
    photos, at half a minute each rounded to the minute: under an hour it is
    given in minutes; on the hour as "1 hour" or "N hours"; otherwise as
    hours, a point and the minutes divided by six and rounded - which for 57
    to 59 minutes past the hour is the two-digit 10, as in "1.10 hours". *)
Theorem manual_time_regimes (n : Z) :
  (0 < n)%Z ->
  let totalMinutes := ((n + 1) / 2)%Z in
  let hours := (totalMinutes / 60)%Z in
  let minutes := (totalMinutes mod 60)%Z in
  (totalMinutes < 60 ->
   AnalyticsDisplayGrid.calculateManualTime (VNum n)
   = AnalyticsDisplayGrid.Text (ofZ totalMinutes ++ " minutes"))%Z
  /\ (60 <= totalMinutes -> minutes = 0 ->
      AnalyticsDisplayGrid.calculateManualTime (VNum n)
      = AnalyticsDisplayGrid.Text
          (ofZ hours ++ " hour" ++ (if 1 <? hours then "s" else "")))%Z
  /\ (60 <= totalMinutes -> 0 < minutes ->
      AnalyticsDisplayGrid.calculateManualTime (VNum n)
      = AnalyticsDisplayGrid.Text
          (ofZ hours ++ "." ++ ofZ ((minutes + 3) / 6) ++ " hours"))%Z
  /\ (60 <= totalMinutes -> 57 <= minutes ->
      AnalyticsDisplayGrid.calculateManualTime (VNum n)
      = AnalyticsDisplayGrid.Text (ofZ hours ++ ".10 hours"))%Z.
Proof.
  intros Hn totalMinutes hours minutes.
  assert (Htm : (0 <= totalMinutes)%Z) by (apply Z.div_pos; lia).
  assert (Hrem : Z.rem totalMinutes 60 = minutes)
    by (apply Z.rem_mod_nonneg; lia).
  assert (Hmin : (0 <= minutes < 60)%Z) by (apply Z.mod_pos_bound; lia).
  assert (Htruthy : truthy (VNum n) = true)
    by (cbn; apply negb_true_iff, Z.eqb_neq; lia).
  unfold AnalyticsDisplayGrid.calculateManualTime. rewrite Htruthy.
  fold totalMinutes. fold hours. rewrite Hrem.
  assert (Hgeneral : (60 <= totalMinutes -> 0 < minutes ->
            (if 1 <=? hours
             then if minutes =? 0
                  then AnalyticsDisplayGrid.Text
                         (ofZ hours ++ " hour" ++ (if 1 <? hours then "s" else ""))
                  else AnalyticsDisplayGrid.Text
                         (ofZ hours ++ "." ++ ofZ ((minutes + 3) / 6) ++ " hours")
             else AnalyticsDisplayGrid.Text (ofZ totalMinutes ++ " minutes"))
            = AnalyticsDisplayGrid.Text
                (ofZ hours ++ "." ++ ofZ ((minutes + 3) / 6) ++ " hours"))%Z).
  { intros H60 Hm.
    assert (1 <= hours)%Z by (apply Z.div_le_lower_bound; lia).
    replace (1 <=? hours)%Z with true by (symmetry; apply Z.leb_le; lia).
    replace (minutes =? 0)%Z with false by (symmetry; apply Z.eqb_neq; lia).
    reflexivity. }
  repeat split.
  - intros Hlt.
    assert (hours = 0)%Z by (apply Z.div_small; lia).
    replace (1 <=? hours)%Z with false by (symmetry; apply Z.leb_gt; lia).
    reflexivity.
  - intros H60 Hm.
    assert (1 <= hours)%Z by (apply Z.div_le_lower_bound; lia).
    replace (1 <=? hours)%Z with true by (symmetry; apply Z.leb_le; lia).
    rewrite Hm. reflexivity.
  - exact Hgeneral.
  - intros H60 Hm. rewrite Hgeneral by lia.
    assert (Hten : ((minutes + 3) / 6 = 10)%Z).
    { symmetry. apply Z.div_unique with (r := (minutes - 57)%Z); lia. }
    rewrite Hten. reflexivity.
Qed.

Lemma manual_time_regimes_witness :
  AnalyticsDisplayGrid.calculateManualTime (VNum 234)
  = AnalyticsDisplayGrid.Text "1.10 hours"
  /\ AnalyticsDisplayGrid.calculateManualTime (VNum 40)
     = AnalyticsDisplayGrid.Text "20 minutes".
Proof.
  assert (H234 : (0 < 234)%Z) by reflexivity.
  assert (H40 : (0 < 40)%Z) by reflexivity.
  split.
  - apply (proj2 (proj2 (proj2 (manual_time_regimes 234 H234)))); cbv; discriminate.
  - apply (proj1 (manual_time_regimes 40 H40)). reflexivity.
Defined.

(** ** How the operations compose *)

Lemma stringified_with_undefined before after :
  stringified (VArr (map VStr before ++ VUndef :: map VStr after))
  = VArr (map VStr before ++ VNull :: map VStr after).
Proof.
  cbn [stringified]. f_equal. rewrite map_app. cbn [map]. f_equal.
  - induction before as [|k ks IH]; [reflexivity|]. simpl. now rewrite IH.
  - f_equal. induction after as [|k ks IH]; [reflexivity|]. simpl. now rewrite IH.
Qed.

(** X24. After a drag reported from beyond the end of an order of texts,
    the next download request carries that order with a [null] at the
    position dropped on: the [undefined] in memory is written as [null]. *)
Theorem stray_drag_sends_null (net : Network) (oldIndex newIndex : nat)
  (st : State) (keys : list string) :
  photoOrder st = map VStr keys ->
  List.length keys <= oldIndex ->
  oldIndex <> newIndex ->
  bodyField "photo_order" (fst (downloadAll net (onEnd oldIndex newIndex st)))
  = Some (VArr (map VStr (firstn newIndex keys)
                ++ VNull :: map VStr (skipn newIndex keys))).
Proof.
  intros Horder Hout Hne.
  assert (Hafter : photoOrder (onEnd oldIndex newIndex st)
                   = map VStr (firstn newIndex keys)
                     ++ VUndef :: map VStr (skipn newIndex keys)).
  { rewrite drag_order_outside by (rewrite ?Horder, ?length_map; assumption).
    now rewrite Horder, firstn_map, skipn_map. }
  unfold downloadAll, bodyField, downloadRequest, POST. cbn [fst reqBody].
  rewrite Hafter.
  pose proof (stringified_with_undefined (firstn newIndex keys)
                (skipn newIndex keys)) as Hs.
  cbn [stringified] in Hs. injection Hs as Hs.
  destruct (uid (onEnd oldIndex newIndex st)); cbn; rewrite Hs; reflexivity.
Qed.

Lemma stray_drag_sends_null_witness :
  bodyField "photo_order" (fst (downloadAll zippingNet (onEnd 5 1 threePhotos)))
  = Some (VArr (map VStr (firstn 1 threeKeys)
                ++ VNull :: map VStr (skipn 1 threeKeys))).
Proof.
  apply (stray_drag_sends_null zippingNet 5 1 threePhotos threeKeys).
  - reflexivity.
  - cbv. lia.
  - discriminate.
Defined.

(** X25. For each of the first 999 positions the badge has exactly three
    characters. *)
Theorem badges_have_three_characters (n : nat) :
  0 < n < 1000 -> String.length (padStart3 n) = 3.
Proof.
  intros [Hpos Hlt].
  assert (Hall : forallb (fun k => Nat.eqb (String.length (padStart3 k)) 3) (seq 1 999)
                 = true) by (vm_compute; reflexivity).
  rewrite forallb_forall in Hall.
  apply Nat.eqb_eq, Hall, in_seq. lia.
Qed.

Lemma badges_have_three_characters_witness :
  String.length (padStart3 42) = 3.
Proof. apply (badges_have_three_characters 42). lia. Defined.

(** ** The age range *)

Lemma filter_inBucket_positive name keys :
  (0 <? Z.of_nat (List.length (filter (inBucket name) keys)))%Z
  = existsb (inBucket name) keys.
Proof.
  induction keys as [|k ks IH]; [reflexivity|].
  simpl. destruct (inBucket name k); simpl; [|exact IH].
  apply Z.ltb_lt. lia.
Qed.

(** X26. When at least one key carries a bucket, the youngest and oldest
    buckets [parseFilenames] reports are the first and the last bucket of
    the table, in table order, that some key counts for, and the age-range
    label joins their two labels with an arrow. *)
Theorem age_range_spans_present_buckets (keys : list string) :
  let present :=
    filter (fun name => existsb (inBucket name) keys) AnalyticsDisplay.bucketOrder in
  forall youngest, hd_error present = Some youngest ->
  exists filenameStats,
    AnalyticsDisplay.parseFilenames (map VStr keys) = inr filenameStats
    /\ statOf "youngestBucket" filenameStats = VStr youngest
    /\ statOf "oldestBucket" filenameStats = VStr (last present youngest)
    /\ statOf "ageRangeLabel" filenameStats
       = VStr (AnalyticsDisplay.labelOf youngest ++ " → "
               ++ AnalyticsDisplay.labelOf (last present youngest)).
Proof.
  intros present youngest Hhd.
  unfold AnalyticsDisplay.parseFilenames.
  change (map (fun b => (b, 0%Z)) AnalyticsDisplay.bucketOrder) with zeroCounts.
  rewrite countKeys_strings. cbn [bind].
  assert (Hsame :
    filter (fun b => (0 <? AnalyticsDisplay.countIn (countsAfter zeroCounts keys) b)%Z)
           AnalyticsDisplay.bucketOrder = present).
  { subst present. apply filter_ext. intros name.
    rewrite countsAfter_exact by reflexivity.
    rewrite countIn_zeroCounts. apply filter_inBucket_positive. }
  rewrite Hsame.
  destruct present as [|first others]; [discriminate Hhd|].
  injection Hhd as ->.
  eexists. split; [reflexivity|]. repeat split.
Qed.

Lemma age_range_spans_present_buckets_witness :
  exists filenameStats,
    AnalyticsDisplay.parseFilenames
      (map VStr ["r/81+(001)_|EX|_q.jpg"; "r/06-10(003)_|EX|_x_photo.jpg"])
      = inr filenameStats
    /\ statOf "youngestBucket" filenameStats = VStr "06-10"
    /\ statOf "oldestBucket" filenameStats = VStr "81+"
    /\ statOf "ageRangeLabel" filenameStats = VStr "6-10 → 81+".
Proof.
  apply (age_range_spans_present_buckets
           ["r/81+(001)_|EX|_q.jpg"; "r/06-10(003)_|EX|_x_photo.jpg"] "06-10").
  reflexivity.
Defined.


(** ** The fallback order, under the host's comparison *)

(** The filename the code sorts by is the filename of the key. *)
Lemma basename_is_filename key : filenameOf key (basename key).
Proof.
  destruct (split_last "/" key) as (dirs & b & Hsplit & Hpop).
  assert (Hb : basename key = b) by (unfold basename; now rewrite Hpop).
  rewrite Hb. split.
  - pose proof (split_parts_no_sep "/" key) as Hall. rewrite Hsplit in Hall.
    rewrite Forall_forall in Hall. apply Hall, in_or_app. right. now left.
  - pose proof (join_split "/" key) as Hjoin. rewrite Hsplit in Hjoin.
    destruct dirs as [|d ds].
    + left. now rewrite <- Hjoin.
    + right. exists (Js.join "/" (d :: ds)).
      rewrite <- Hjoin. apply join_app_last. discriminate.
Qed.

(** A key has one filename only. *)
Lemma filenameOf_unique key name :
  filenameOf key name -> name = basename key.
Proof.
  intros [Hno [-> | (dir & ->)]].
  - unfold basename. now rewrite (split_no_sep "/" name Hno).
  - change (dir ++ "/" ++ name)%string with (dir ++ String "/" name)%string.
    rewrite basename_app. unfold basename.
    now rewrite (split_no_sep "/" name Hno).
Qed.

Lemma filenames_of_keys keys : Forall2 filenameOf keys (map basename keys).
Proof.
  induction keys as [|k ks IH]; constructor; [apply basename_is_filename|exact IH].
Qed.

Lemma sorted_map_basename cmp keys :
  Sorted (notAfter (byFilename cmp)) keys ->
  Sorted (notAfter cmp) (map basename keys).
Proof.
  induction 1 as [|k ks Hs IH Hhd]; [constructor|].
  simpl. constructor; [exact IH|].
  destruct Hhd as [|k' ks' Hle]; constructor. exact Hle.
Qed.

Lemma letterOrder_consistent : Consistent letterOrder.
Proof.
  destruct byteOrder_consistent as [Htotal Htrans]. split.
  - intros a b. apply Htotal.
  - intros a b c. apply Htrans.
Qed.

(** C3, as the specification states it, fails when "lexical" is read as
    the order of the code units: [localeCompare] is the host's collation.
    Under a collation that ranks letters before case, the manifest with
    IMG_2.jpg and img_1.jpg is shown with img_1.jpg first, and by code units
    that filename is the greater. *)
Lemma manifest_order_sorted_counterexample :
  Consistent letterOrder
  /\ truthy (loadCustomOrder mixedCaseNet (uid orderU1)) = false
  /\ (letterOrder "img_1.jpg" "IMG_2.jpg" < 0)%Z
  /\ snd (loadPhotos letterOrder mixedCaseNet orderU1) = None
  /\ photoOrder (fst (loadPhotos letterOrder mixedCaseNet orderU1))
     = [VStr "enhanced/u1/renamed/img_1.jpg"; VStr "enhanced/u1/renamed/IMG_2.jpg"]
  /\ filenameOf "enhanced/u1/renamed/img_1.jpg" "img_1.jpg"
  /\ filenameOf "enhanced/u1/renamed/IMG_2.jpg" "IMG_2.jpg"
  /\ String.compare "img_1.jpg" "IMG_2.jpg" = Gt.
Proof.
  split; [exact letterOrder_consistent|].
  repeat split; try reflexivity.
  - right. now exists "enhanced/u1/renamed".
  - right. now exists "enhanced/u1/renamed".
Qed.

(** C3, amended. With no override in use and a well-formed manifest,
    [loadPhotos] finishes without throwing and [photoOrder] holds the kept
    keys of the manifest, rearranged so that, taking of each key its
    filename - what follows its last '/' - no filename compares greater
    than the next one under the host's [localeCompare], whatever consistent
    comparison that is; it need not be the order of the code units. *)
Theorem manifest_order_sorted (localeCompare : string -> string -> Z)
  (net : Network) (st : State) (r : Response) (entries : list value) :
  Consistent localeCompare ->
  truthy (loadCustomOrder net (uid st)) = false ->
  net (GET (manifestUrl (uid st))) = Resolved r ->
  ok r = true ->
  json r = inr (VArr entries) ->
  forallb wellFormedEntry entries = true ->
  exists st' keys names,
    loadPhotos localeCompare net st = (st', None)
    /\ photoOrder st' = map VStr keys
    /\ Permutation keys (keptKeys entries)
    /\ Forall2 filenameOf keys names
    /\ Sorted (fun a b => (localeCompare a b <= 0)%Z) names.
Proof.
  intros [Htotal _] Hcustom Hnet Hok Hjson Hwf.
  set (byName := byFilename localeCompare).
  destruct (loadPhotos_resolved localeCompare net st (sort byName (keptKeys entries)))
    as (st' & H1 & H2 & _).
  { unfold resolveEntries. rewrite Hcustom. cbn [snd].
    now apply entriesOfManifest_wellFormed with (r := r). }
  exists st', (sort byName (keptKeys entries)),
    (map basename (sort byName (keptKeys entries))).
  split; [exact H1|]. split; [exact H2|]. split; [apply sort_perm|].
  split; [apply filenames_of_keys|].
  apply (sorted_map_basename localeCompare).
  apply (sort_sorted byName). intros a b. apply Htotal.
Qed.

Lemma manifest_order_sorted_witness :
  exists st' keys names,
    loadPhotos letterOrder mixedCaseNet orderU1 = (st', None)
    /\ photoOrder st' = map VStr keys
    /\ Permutation keys (keptKeys mixedCaseEntries)
    /\ Forall2 filenameOf keys names
    /\ Sorted (fun a b => (letterOrder a b <= 0)%Z) names.
Proof.
  apply (manifest_order_sorted letterOrder mixedCaseNet orderU1
           (okManifest mixedCaseEntries) mixedCaseEntries).
  - exact letterOrder_consistent.
  - reflexivity.
  - reflexivity.
  - reflexivity.
  - reflexivity.
  - reflexivity.
Defined.
